(** * Fabric management tasks ([fabfile.py]): a shallow embedding

    The fabfile is a list of tasks; each task runs shell commands through
    Fabric's [local], some of them wrapped in the continue-or-abort helper
    [cont].  Tasks are embedded as computations in a state-and-exception
    monad whose state holds Fabric's [env] mapping and the history of
    interactions with the outside world (commands run, questions asked). *)

From Stdlib Require Import String Ascii List ZArith Bool.
From stdpp Require Import base option gmap strings list fin_maps pretty.

Import ListNotations.
Local Open Scope string_scope.
Local Open Scope list_scope.

(** ** Python values, truthiness and [str.format] *)

Module Py.

(** The values that live in Fabric's [env]: strings and flags. *)
Inductive value :=
| VStr (s : string)
| VBool (b : bool).

(** [str(v)] *)
Definition str (v : value) : string :=
  match v with
  | VStr s => s
  | VBool true => "True"
  | VBool false => "False"
  end.

(** [bool(v)] *)
Definition truthy (v : value) : bool :=
  match v with
  | VStr "" => false
  | VStr _ => true
  | VBool b => b
  end.

(** An argument that may be [None]: truthy when it is a non-empty string. *)
Definition truthy_arg (a : option string) : bool :=
  match a with
  | None | Some "" => false
  | Some _ => true
  end.

Inductive exn :=
| KeyError (key : string)
| IndexError
| ValueError
| TypeError
| SystemExit (code : Z) (message : string).

Inductive result (A : Type) :=
| Ok (a : A)
| Raise (e : exn).
Arguments Ok {A} a.
Arguments Raise {A} e.

Definition prepend (s : string) (r : result string) : result string :=
  match r with
  | Ok t => Ok (s +:+ t)
  | Raise e => Raise e
  end.

Fixpoint snoc (s : string) (c : ascii) : string :=
  match s with
  | EmptyString => String c ""
  | String d s' => String d (snoc s' c)
  end.

(** [str.format] with keyword arguments [kw], for templates whose
    replacement fields are plain names: a doubled brace is an escaped brace, [{name}] is replaced by
    [str(kw[name])], a missing name raises [KeyError], an empty field asks
    for a positional argument that is not there, a lone closing brace or an
    unclosed field is a [ValueError].  [fld] is the field name read so far
    when the scan is inside a replacement field. *)
Fixpoint format_from (kw : gmap string value) (fld : option string)
    (t : string) : result string :=
  match fld with
  | None =>
      match t with
      | EmptyString => Ok ""
      | String c t' =>
          if Ascii.eqb c "{" then
            match t' with
            | String c' t'' =>
                if Ascii.eqb c' "{" then prepend "{" (format_from kw None t'')
                else format_from kw (Some "") t'
            | EmptyString => Raise ValueError
            end
          else if Ascii.eqb c "}" then
            match t' with
            | String c' t'' =>
                if Ascii.eqb c' "}" then prepend "}" (format_from kw None t'')
                else Raise ValueError
            | EmptyString => Raise ValueError
            end
          else prepend (String c "") (format_from kw None t')
      end
  | Some f =>
      match t with
      | EmptyString => Raise ValueError
      | String c t' =>
          if Ascii.eqb c "}" then
            match f with
            | "" => Raise IndexError
            | _ =>
                match kw !! f with
                | Some v => prepend (str v) (format_from kw None t')
                | None => Raise (KeyError f)
                end
            end
          else format_from kw (Some (snoc f c)) t'
      end
  end.

Definition format (t : string) (kw : gmap string value) : result string :=
  format_from kw None t.

(** [f(name=v, **m)]: a keyword given twice is a [TypeError]. *)
Definition kwargs (name : string) (v : value) (m : gmap string value)
    : result (gmap string value) :=
  match m !! name with
  | Some _ => Raise TypeError
  | None => Ok (<[name := v]> m)
  end.

(** [needle in haystack] *)
Fixpoint contains (haystack needle : string) : bool :=
  String.prefix needle haystack ||
  match haystack with
  | EmptyString => false
  | String _ h => contains h needle
  end.

End Py.

Import Py.

(** ** Fabric: [env], [local], [settings], [confirm], [abort]

    The fabfile imports these from Fabric 1.x; they are embedded here by
    their documented behaviour, with the outside world (the shell and the
    operator) as an explicit parameter. *)

Module Fabric.

(** What the task runner did to the outside world, oldest first. *)
Inductive event :=
| Ran (cmd : string) (capture : bool) (returncode : Z)
| Asked (question : string) (answer : bool).

(** The outside world: the status a command exits with and what the
    operator answers, each as a function of everything that happened
    before. *)
Record world := World {
  returncode : list event → string → Z;
  operator_accepts : list event → string → bool
}.

(** [env] is the process-wide mapping [fabric.api.env]. *)
Record state := State {
  env : gmap string value;
  log : list event
}.

Definition record (ev : event) (s : state) : state :=
  {| env := env s; log := log s ++ [ev] |}.

Definition with_env (e : gmap string value) (s : state) : state :=
  {| env := e; log := log s |}.

(** A task body: it reads and writes the state and returns or raises. *)
Definition M (A : Type) : Type := state → result A * state.

Definition ret {A} (a : A) : M A := λ s, (Ok a, s).

Definition bind {A B} (m : M A) (f : A → M B) : M B := λ s,
  match m s with
  | (Ok a, s') => f a s'
  | (Raise e, s') => (Raise e, s')
  end.

Declare Scope fab_scope.
Delimit Scope fab_scope with fab.
Bind Scope fab_scope with M.
Notation "x ← y ; z" := (bind y (λ x, z))
  (at level 20, y at level 100, z at level 200, only parsing) : fab_scope.
Notation "x ;; z" := (bind x (λ _, z))
  (at level 100, z at level 200, only parsing, right associativity)
  : fab_scope.
Local Open Scope fab_scope.

Definition raise {A} (e : exn) : M A := λ s, (Raise e, s).

Definition lift {A} (r : result A) : M A := λ s, (r, s).

Definition get_env : M (gmap string value) := λ s, (Ok (env s), s).

(** [env.warn_only]; Fabric's default is [False]. *)
Definition warn_only (e : gmap string value) : bool :=
  match e !! "warn_only" with
  | Some v => truthy v
  | None => false
  end.

(** [abort(msg)]: prints the message and raises [SystemExit(1)]. *)
Definition abort {A} (msg : string) : M A := raise (SystemExit 1 msg).

Definition local_error (code : Z) (cmd : string) : string :=
  "local() encountered an error (return code " +:+ pretty code
    +:+ ") while executing '" +:+ cmd +:+ "'".

(** A command failed when its exit status is not zero (Fabric's default
    [ok_ret_codes]). *)
Definition failed (code : Z) : bool := negb (code =? 0)%Z.

(** [local(cmd, capture)]: runs the command; on failure it aborts unless
    [env.warn_only] is set, in which case it only warns.  Returns
    the [failed] attribute of the result. *)
Definition local (W : world) (cmd : string) (capture : bool) : M bool :=
  λ s,
    let code := returncode W (log s) cmd in
    let s' := record (Ran cmd capture code) s in
    if failed code && negb (warn_only (env s))
    then abort (local_error code cmd) s'
    else (Ok (failed code), s').

(** [with settings(key=v): body]: sets the key for the block and puts the
    old binding back (or removes the key if there was none) when the block
    is left, normally or by an exception. *)
Definition settings {A} (key : string) (v : value) (body : M A) : M A :=
  λ s,
    let previous := env s !! key in
    let '(r, s') := body (with_env (<[key := v]> (env s)) s) in
    let restored :=
      match previous with
      | Some old => <[key := old]> (env s')
      | None => delete key (env s')
      end in
    (r, with_env restored s').

(** [confirm(question)] in an interactive session (Fabric's
    [abort_on_prompts] and [parallel] are off and the operator is at the
    terminal): asks the operator the question and blocks until there is a
    yes or a no, which it returns. *)
Definition confirm (W : world) (question : string) : M bool :=
  λ s,
    let answer := operator_accepts W (log s) question in
    (Ok answer, record (Asked question answer) s).

(** [for x in xs: body(x)] *)
Fixpoint for_each {A} (xs : list A) (body : A → M unit) : M unit :=
  match xs with
  | [] => ret tt
  | x :: xs' => body x;; for_each xs' body
  end.

(** The process exit status a run ends with. *)
Definition exit_status {A} (r : result A) : Z :=
  match r with
  | Ok _ => 0
  | Raise (SystemExit code _) => code
  | Raise _ => 1
  end.

(** The commands run, and the questions asked, in order. *)
Definition commands (l : list event) : list string :=
  omap (λ ev, match ev with Ran c _ _ => Some c | _ => None end) l.

Definition questions (l : list event) : list string :=
  omap (λ ev, match ev with Asked q _ => Some q | _ => None end) l.

End Fabric.

Import Fabric.
Local Open Scope fab_scope.

(** ** The fabfile *)

(** The double-quote character, for the one catalog entry that has it. *)
Definition dq : string := String "034" "".

Definition HEROKU_ADDONS : list string := [
  "cloudamqp:lemur";
  "heroku-postgresql:dev";
  "scheduler:standard";
  "memcachier:dev";
  "newrelic:standard";
  "pgbackups:auto-month";
  "sentry:developer"
].

Definition HEROKU_CONFIGS : list string := [
  "BUILDPACK_URL=https://github.com/jbarone/heroku-buildpack-python-plus";
  "DJANGO_SETTINGS_MODULE={{ project_name }}.settings.prod";
  "SECRET_KEY=" +:+ dq +:+ "{{ secret_key }}" +:+ dq;
  "AWS_ACCESS_KEY_ID=xxx";
  "AWS_SECRET_ACCESS_KEY=xxx";
  "AWS_STORAGE_BUCKET_NAME={{ project_name }}"
].

(** [env] once the module is loaded: Fabric's own defaults and
    [env.run = 'heroku run python manage.py']. *)
Definition initial_env : gmap string value :=
  <["run" := VStr "heroku run python manage.py"]>
    {[ "warn_only" := VBool false ]}.

Definition initial_state : state := {| env := initial_env; log := [] |}.

Section Tasks.

Variable W : world.

(** [template.format( **env )] *)
Definition format_env (template : string) : M string :=
  e ← get_env; lift (format template e).

(** [template.format(name=v)] *)
Definition format1 (template name v : string) : M string :=
  lift (format template {[ name := VStr v ]}).

Definition cont (cmd : string) (message : option string) : M unit :=
  result_failed ← settings "warn_only" (VBool true) (local W cmd true);
  if truthy_arg message then
    if result_failed then
      accepted ← confirm W (default "" message);
      if negb accepted then abort "Stopped execution per user request."
      else ret tt
    else ret tt
  else ret tt.

Definition syncdb : M unit :=
  cmd ← format_env "{run} syncdb --noinput";
  local W cmd false;; ret tt.

Definition migrate (app : option string) : M unit :=
  if truthy_arg app then
    e ← get_env;
    kw ← lift (kwargs "app" (VStr (default "" app)) e);
    cmd ← lift (format "{run} migrate {app} --noinput" kw);
    local W cmd false;; ret tt
  else
    cmd ← format_env "{run} migrate --noinput";
    local W cmd false;; ret tt.

Definition south_init (app : string) : M unit :=
  cmd ← format1 "python manage.py schemamigration {app} --initial" "app" app;
  local W cmd false;; ret tt.

Definition south_update (app : string) : M unit :=
  cmd ← format1 "python manage.py schemamigration {app} --auto" "app" app;
  local W cmd false;; ret tt.

Definition collectstatic : M unit :=
  cmd ← format_env "{run} collectstatic --noinput";
  local W cmd false;; ret tt.

Definition compress : M unit :=
  cmd ← format_env "{run} compress";
  local W cmd false;; ret tt.

Definition initialize : M unit :=
  local W "rm -rf docs README.md" false;;
  local W "echo /{{ project_name }}/static > .gitignore" false;;
  local W "git init" false;;
  local W "git add ." false;;
  local W "git commit -m 'First commit'" false;;
  ret tt.

Definition startapp (app : string) : M unit :=
  cmd ← format1 "mkdir {{ project_name }}/apps/{app}" "app" app;
  local W cmd false;;
  cmd ← format1
    "python manage.py startapp {app} {{ project_name }}/apps/{app}"
    "app" app;
  local W cmd false;; ret tt.

Definition update : M unit :=
  cont "git push heroku master"
    (Some "Couldn't push your application to Heroku, continue anyway?");;
  syncdb;;
  migrate None;;
  collectstatic;;
  compress;;
  cmd ← format_env "{run} newrelic-admin validate-config - stdout";
  cont cmd (Some "Couldn't initialize New Relic, continue anyway?").

(** [if not app: app = default] *)
Definition app_or (app : option string) (fallback : string) : string :=
  if truthy_arg app then default "" app else fallback.

Definition bootstrap_default : string := "{{ project_name}}".
Definition destroy_default : string := "{{ project_name }}".

Definition add_addon (addon : string) : M unit :=
  cmd ← format1 "heroku addons:add {addon}" "addon" addon;
  msg ← format1
    "Couldn't add {addon} to your Heroku app, continue anyway?"
    "addon" addon;
  cont cmd (Some msg).

Definition add_config (config : string) : M unit :=
  cmd ← format1 "heroku config:add config" "config" config;
  msg ← format1
    "Couldn't add config to your Heroku app, continue anyway?"
    "config" config;
  cont cmd (Some msg).

Definition bootstrap (app : option string) : M unit :=
  let app := app_or app bootstrap_default in
  cmd ← format1 "heroku apps:create {app}" "app" app;
  cont cmd (Some "Couldn't create the Heroku app, continue anyway?");;
  for_each HEROKU_ADDONS add_addon;;
  for_each HEROKU_CONFIGS add_config;;
  cont "git push heroku master"
    (Some "Couldn't push your application to Heroku, continue anyway?");;
  syncdb;;
  migrate None;;
  collectstatic;;
  compress;;
  cmd ← format_env "{run} newrelic-admin validate-config - stdout";
  cont cmd (Some "Couldn't initialize New Relic, continue anyway?").

(** The steps of [bootstrap] up to and including its two catalog loops. *)
Definition bootstrap_provision (app : option string) : M unit :=
  let app := app_or app bootstrap_default in
  cmd ← format1 "heroku apps:create {app}" "app" app;
  cont cmd (Some "Couldn't create the Heroku app, continue anyway?");;
  for_each HEROKU_ADDONS add_addon;;
  for_each HEROKU_CONFIGS add_config.

Definition destroy (app : option string) : M unit :=
  let app := app_or app destroy_default in
  cmd ← format1 "heroku apps:destroy --app {app}" "app" app;
  local W cmd false;; ret tt.

End Tasks.

(** Worlds used to run the tasks on concrete inputs. *)
Definition all_succeed : world := World (λ _ _, 0%Z) (λ _ _, true).
Definition all_fail_declined : world := World (λ _ _, 1%Z) (λ _ _, false).
Definition all_fail_accepted : world := World (λ _ _, 1%Z) (λ _ _, true).

(** The message [cont] aborts with. *)
Definition stopped : string := "Stopped execution per user request.".

(** A computation leaves [env] as it found it, however it ends. *)
Definition preserves_env {A} (m : M A) : Prop :=
  ∀ s, env (m s).2 = env s.

(** Started with [env = e], the computation leaves [env] alone and runs
    the commands [cmds] in that order: all of them when it returns, and an
    initial part of them when it is cut short by an exception. *)
Definition issues {A} (e : gmap string value) (m : M A)
    (cmds : list string) : Prop :=
  ∀ s r s', env s = e → m s = (r, s') →
    env s' = e ∧
    ∃ ran, commands (log s') = commands (log s) ++ ran ∧
           match r with
           | Ok _ => ran = cmds
           | Raise _ => ran `prefix_of` cmds
           end.

(** The command lines the tasks build. *)
Definition addon_command (addon : string) : string :=
  "heroku addons:add " +:+ addon.

(** The configuration push as line 158 formats it: its template names no
    field, so the entry does not appear in the command. *)
Definition config_command (config : string) : string :=
  "heroku config:add config".

(** Whether a command line is an add-on installation. *)
Definition is_addon_install (cmd : string) : bool :=
  String.prefix "heroku addons:add " cmd.

Definition deploy_commands (run : string) : list string := [
  "git push heroku master";
  run +:+ " syncdb --noinput";
  run +:+ " migrate --noinput";
  run +:+ " collectstatic --noinput";
  run +:+ " compress";
  run +:+ " newrelic-admin validate-config - stdout"
].

Definition bootstrap_commands (app : option string) (run : string)
    : list string :=
  ("heroku apps:create " +:+ app_or app bootstrap_default)
    :: map addon_command HEROKU_ADDONS
    ++ map config_command HEROKU_CONFIGS
    ++ deploy_commands run.

(** The questions the tasks put to the operator. *)
Definition create_question : string :=
  "Couldn't create the Heroku app, continue anyway?".

Definition addon_question (addon : string) : string :=
  "Couldn't add " +:+ addon +:+ " to your Heroku app, continue anyway?".

Definition config_question : string :=
  "Couldn't add config to your Heroku app, continue anyway?".

Definition push_question : string :=
  "Couldn't push your application to Heroku, continue anyway?".

Definition newrelic_question : string :=
  "Couldn't initialize New Relic, continue anyway?".

Definition bootstrap_questions : list string :=
  create_question
    :: map addon_question HEROKU_ADDONS
    ++ map (λ _, config_question) HEROKU_CONFIGS
    ++ [push_question; newrelic_question].

(** However it ends, the computation puts to the operator some of the
    questions [qs], in that order, and no other. *)
Definition asks {A} (m : M A) (qs : list string) : Prop :=
  ∀ s, ∃ asked,
    questions (log (m s).2) = questions (log s) ++ asked ∧
    asked `sublist_of` qs.

(** The command lines of the project tasks. *)
Definition initialize_commands : list string := [
  "rm -rf docs README.md";
  "echo /{{ project_name }}/static > .gitignore";
  "git init";
  "git add .";
  "git commit -m 'First commit'"
].

Definition startapp_commands (app : string) : list string := [
  "mkdir { project_name }/apps/" +:+ app;
  "python manage.py startapp " +:+ app +:+ " { project_name }/apps/" +:+ app
].

(** A world in which the code push succeeds and every other command fails,
    with an operator who accepts. *)
Definition only_push_succeeds : world :=
  World (λ _ cmd, if String.eqb cmd "git push heroku master" then 0%Z else 1%Z)
        (λ _ _, true).

(** What running one command directly, outside [cont], comes to: the
    command is run uncaptured, and its failure ends the run unless
    [env.warn_only] is set. *)
Definition run_directly (W : world) (cmd : string) (s : state)
    : result unit * state :=
  let code := returncode W (log s) cmd in
  (if failed code && negb (warn_only (env s))
   then Raise (SystemExit 1 (local_error code cmd))
   else Ok (),
   record (Ran cmd false code) s).

(** An event of a command that was run directly and exited with zero, or
    any other event. *)
Definition direct_succeeded (ev : event) : Prop :=
  match ev with
  | Ran _ false code => code = 0%Z
  | _ => True
  end.

(** Started with [env.warn_only] unset, a computation that returns has
    only added events, left [env] alone, and every command it ran
    directly exited with zero. *)
Definition checked {A} (m : M A) : Prop :=
  ∀ s a s', warn_only (env s) = false → m s = (Ok a, s') →
    env s' = env s ∧
    ∃ evs, log s' = log s ++ evs ∧ Forall direct_succeeded evs.

(** ** The fabfile as a project template

    [fabfile.py] is a file of a [startproject] template: before anyone runs
    a task, Django writes the project's copy of the file, rendering every
    variable tag in its text with the project's context.  Django is not
    part of the repository; what is embedded is the rendering of variable
    tags that hold one name, which is all this file has. *)

Module Django.

(** Whitespace off the front of a tag's contents. *)
Fixpoint lstrip (t : string) : string :=
  match t with
  | String c t' => if Ascii.is_space c then lstrip t' else t
  | EmptyString => ""
  end.

(** Whitespace off the end: what is left of [t] once trailing whitespace
    is gone ([EmptyString] when [t] is all whitespace). *)
Fixpoint rstrip (t : string) : string :=
  match t with
  | String c t' =>
      match rstrip t' with
      | EmptyString => if Ascii.is_space c then "" else String c ""
      | rest => String c rest
      end
  | EmptyString => ""
  end.

(** [contents.strip()] *)
Definition strip (t : string) : string := rstrip (lstrip t).

(** The value of a variable; a name the context does not have renders as
    the empty string. *)
Definition resolve (ctx : gmap string string) (name : string) : string :=
  default "" (ctx !! name).

(** Rendering, with autoescaping off as [startproject] sets it: text is
    copied; a variable tag, from an opening pair of braces to the first
    closing pair, is replaced by the value of the name inside it, whatever
    whitespace surrounds the name; an opening pair that is never closed is
    text.  [tag] is what has been read of the tag the scan is in. *)
Fixpoint render_from (ctx : gmap string string) (tag : option string)
    (t : string) : string :=
  match tag with
  | None =>
      match t with
      | EmptyString => ""
      | String c t' =>
          if Ascii.eqb c "{" then
            match t' with
            | String c' t'' =>
                if Ascii.eqb c' "{" then render_from ctx (Some "") t''
                else String c (render_from ctx None t')
            | EmptyString => String c ""
            end
          else String c (render_from ctx None t')
      end
  | Some contents =>
      match t with
      | EmptyString => "{{" +:+ contents
      | String c t' =>
          if Ascii.eqb c "}" then
            match t' with
            | String c' t'' =>
                if Ascii.eqb c' "}"
                then resolve ctx (strip contents) +:+ render_from ctx None t''
                else render_from ctx (Some (snoc contents c)) t'
            | EmptyString => "{{" +:+ snoc contents c
            end
          else render_from ctx (Some (snoc contents c)) t'
      end
  end.

Definition render (ctx : gmap string string) (text : string) : string :=
  render_from ctx None text.

End Django.

Section GeneratedProject.

Variable W : world.

(** The name given to [startproject], and the secret key it draws. *)
Variables (project_name secret_key : string).

Definition startproject_context : gmap string string :=
  <["project_name" := project_name]> {[ "secret_key" := secret_key ]}.

(** How a piece of the template's text reads in the project's file. *)
Definition generated (text : string) : string :=
  Django.render startproject_context text.

(** [bootstrap] and [destroy] as the project's file has them.  The tagged
    text they use is the default application name and the configuration
    catalog; the rest of their text has no tag and is as in the template. *)
Definition generated_bootstrap (app : option string) : M unit :=
  let app := app_or app (generated "{{ project_name}}") in
  cmd ← format1 "heroku apps:create {app}" "app" app;
  cont W cmd (Some "Couldn't create the Heroku app, continue anyway?");;
  for_each HEROKU_ADDONS (add_addon W);;
  for_each (map generated HEROKU_CONFIGS) (add_config W);;
  cont W "git push heroku master"
    (Some "Couldn't push your application to Heroku, continue anyway?");;
  syncdb W;;
  migrate W None;;
  collectstatic W;;
  compress W;;
  cmd ← format_env "{run} newrelic-admin validate-config - stdout";
  cont W cmd (Some "Couldn't initialize New Relic, continue anyway?").

Definition generated_destroy (app : option string) : M unit :=
  let app := app_or app (generated "{{ project_name }}") in
  cmd ← format1 "heroku apps:destroy --app {app}" "app" app;
  local W cmd false;; ret ().

End GeneratedProject.

(** The text of [bootstrap], [destroy] and the tasks they call that the
    generated tasks take over from the template as it is. *)
Definition untagged_text : list string := [
  "heroku apps:create {app}";
  "Couldn't create the Heroku app, continue anyway?";
  "heroku addons:add {addon}";
  "Couldn't add {addon} to your Heroku app, continue anyway?";
  "heroku config:add config";
  "Couldn't add config to your Heroku app, continue anyway?";
  "git push heroku master";
  "Couldn't push your application to Heroku, continue anyway?";
  "{run} syncdb --noinput";
  "{run} migrate --noinput";
  "{run} collectstatic --noinput";
  "{run} compress";
  "{run} newrelic-admin validate-config - stdout";
  "Couldn't initialize New Relic, continue anyway?";
  "heroku apps:destroy --app {app}";
  "Stopped execution per user request."
] ++ HEROKU_ADDONS.

(** The computation returns from every state, leaves [env] alone and has
    run exactly the commands [cmds]. *)
Definition completes {A} (m : M A) (cmds : list string) : Prop :=
  ∀ s, ∃ a s', m s = (Ok a, s') ∧ env s' = env s ∧
               commands (log s') = commands (log s) ++ cmds.

(** However it ends, the computation only adds to the history. *)
Definition appends {A} (m : M A) : Prop :=
  ∀ s, ∃ evs, log (m s).2 = log s ++ evs.

(** In every run, however it ends, the computation first runs the
    commands [cmds], in that order. *)
Definition reaches {A} (m : M A) (cmds : list string) : Prop :=
  ∀ s, ∃ more,
    commands (log (m s).2) = commands (log s) ++ cmds ++ more.

(** The operator never refuses: after every failed command the answer to
    the question that follows is yes.  (Nothing is asked of the operator
    after a command that succeeded.) *)
Definition never_refuses (W : world) : Prop :=
  ∀ history cmd q,
    returncode W history cmd ≠ 0%Z →
    operator_accepts W
      (history ++ [Ran cmd true (returncode W history cmd)]) q = true.

(** What bootstrap runs up to and including the code push. *)
Definition provision_commands (app : option string) : list string :=
  ("heroku apps:create " +:+ app_or app bootstrap_default)
    :: map addon_command HEROKU_ADDONS
    ++ map config_command HEROKU_CONFIGS
    ++ ["git push heroku master"].

(** ** Runs on concrete inputs *)

Example format_escaped_braces :
  format "mkdir {{ project_name }}/apps/{app}" {[ "app" := VStr "blog" ]}
  = Ok "mkdir { project_name }/apps/blog".
Proof. vm_compute. reflexivity. Qed.

Example format_missing_key :
  format "{run} compress" ∅ = Raise (KeyError "run").
Proof. vm_compute. reflexivity. Qed.

Example migrate_one_app :
  (migrate all_succeed (Some "blog") initial_state).2
  = {| env := initial_env;
       log := [Ran "heroku run python manage.py migrate blog --noinput"
                 false 0%Z] |}.
Proof. vm_compute. reflexivity. Qed.

Example update_declined_at_push :
  update all_fail_declined initial_state
  = (Raise (SystemExit 1 "Stopped execution per user request."),
     {| env := initial_env;
        log := [Ran "git push heroku master" true 1%Z;
                Asked "Couldn't push your application to Heroku, continue anyway?"
                  false] |}).
Proof. vm_compute. reflexivity. Qed.

Example update_accepted_then_sync_fails :
  commands (log (update all_fail_accepted initial_state).2)
  = ["git push heroku master";
     "heroku run python manage.py syncdb --noinput"].
Proof. vm_compute. reflexivity. Qed.

(** ** The monad *)

Section Monad.

Context {A B C : Type}.

Lemma bind_ok (m : M A) (f : A → M B) s a s' :
  m s = (Ok a, s') → (x ← m; f x) s = f a s'.
Proof. unfold bind. intros ->. reflexivity. Qed.

Lemma bind_raise (m : M A) (f : A → M B) s e s' :
  m s = (Raise e, s') → (x ← m; f x) s = (Raise e, s').
Proof. unfold bind. intros ->. reflexivity. Qed.

Lemma bind_assoc (m : M A) (f : A → M B) (g : B → M C) s :
  (y ← (x ← m; f x); g y) s = (x ← m; y ← f x; g y) s.
Proof. unfold bind. destruct (m s) as [[a|e] s']; reflexivity. Qed.

Lemma bind_ext (m : M A) (f g : A → M B) s :
  (∀ a s', f a s' = g a s') → (x ← m; f x) s = (x ← m; g x) s.
Proof. intros E. unfold bind. destruct (m s) as [[a|e] s']; auto. Qed.

End Monad.

Lemma append_empty_r (s : string) : s +:+ "" = s.
Proof.
  induction s as [|c s IH]; [reflexivity|].
  change (String c s +:+ "") with (String c (s +:+ "")). now rewrite IH.
Qed.

(** ** Fabric's primitives *)

Lemma settings_restores (e : gmap string value) key v :
  match e !! key with
  | Some old => <[key := old]> (<[key := v]> e)
  | None => delete key (<[key := v]> e)
  end = e.
Proof.
  destruct (e !! key) as [old|] eqn:E.
  - rewrite insert_insert_eq. now apply insert_id.
  - rewrite delete_insert_eq. now apply delete_id.
Qed.

Lemma warn_only_set (e : gmap string value) :
  warn_only (<["warn_only" := VBool true]> e) = true.
Proof. unfold warn_only. now rewrite lookup_insert_eq. Qed.

Section Wrapper.

Variable W : world.

(** Inside [settings(warn_only=True)] a command never aborts, and the
    block leaves [env] as it found it. *)
Lemma local_warn_only cmd capture s :
  settings "warn_only" (VBool true) (local W cmd capture) s
  = (Ok (failed (returncode W (log s) cmd)),
     record (Ran cmd capture (returncode W (log s) cmd)) s).
Proof.
  unfold settings, local, with_env, record; simpl.
  rewrite warn_only_set, andb_false_r; simpl.
  now rewrite (settings_restores (env s)).
Qed.

(** [cont] in closed form. *)
Lemma cont_unfold cmd message s :
  cont W cmd message s =
    let s1 := record (Ran cmd true (returncode W (log s) cmd)) s in
    if truthy_arg message && failed (returncode W (log s) cmd) then
      let q := default "" message in
      let s2 := record (Asked q (operator_accepts W (log s1) q)) s1 in
      if operator_accepts W (log s1) q then (Ok (), s2)
      else (Raise (SystemExit 1 stopped), s2)
    else (Ok (), s1).
Proof.
  unfold cont. rewrite (bind_ok _ _ _ _ _ (local_warn_only cmd true s)).
  cbv zeta.
  destruct (truthy_arg message); [|reflexivity].
  destruct (failed _); [|reflexivity].
  simpl. unfold bind, confirm.
  destruct (operator_accepts W _ _); reflexivity.
Qed.

End Wrapper.

(** ** The confirmation wrapper *)

Section ConfirmationWrapper.

Variable W : world.

(** C1.  When the command run through [cont] fails and the question [q] is
    not empty, the operator is asked [q] exactly once (the run gains the
    command and then that one question, and [env] is as before).  If the
    operator declines, the run ends with [SystemExit(1)] carrying
    'Stopped execution per user request.' and whatever the calling task
    would do next is not run; if the operator accepts, [cont] returns and
    the caller's next step runs from the state [cont] leaves. *)
Theorem cont_failure_asks_once (cmd q : string) (s : state) :
  q ≠ "" →
  returncode W (log s) cmd ≠ 0%Z →
  let code := returncode W (log s) cmd in
  let answer := operator_accepts W (log s ++ [Ran cmd true code]) q in
  let s' :=
    {| env := env s;
       log := log s ++ [Ran cmd true code; Asked q answer] |} in
  (cont W cmd (Some q) s).2 = s' ∧
  questions (log s') = questions (log s) ++ [q] ∧
  (answer = false →
     (cont W cmd (Some q) s).1
       = Raise (SystemExit 1 "Stopped execution per user request.") ∧
     exit_status (cont W cmd (Some q) s).1 ≠ 0%Z ∧
     ∀ B (next : unit → M B),
       (x ← cont W cmd (Some q); next x) s
       = (Raise (SystemExit 1 "Stopped execution per user request."), s')) ∧
  (answer = true →
     (cont W cmd (Some q) s).1 = Ok () ∧
     ∀ B (next : unit → M B),
       (x ← cont W cmd (Some q); next x) s = next () s').
Proof.
  intros Hq Hcode code answer s'.
  assert (Hcont : cont W cmd (Some q) s =
            (if answer then Ok () else Raise (SystemExit 1 stopped), s')).
  { rewrite cont_unfold. cbv zeta.
    replace (truthy_arg (Some q)) with true by (now destruct q).
    unfold failed. fold code.
    destruct (Z.eqb_spec code 0) as [E|_]; [contradiction|].
    simpl. fold answer. unfold s', record; simpl. rewrite <- app_assoc.
    now destruct answer. }
  split; [now rewrite Hcont|].
  split.
  { unfold questions, s'; simpl. rewrite omap_app. simpl.
    reflexivity. }
  split; intros Ha; rewrite Ha in Hcont.
  - rewrite Hcont. repeat split; [discriminate|].
    intros B next. now apply bind_raise.
  - rewrite Hcont. split; [reflexivity|].
    intros B next. now apply bind_ok.
Qed.

(** C2.  When the command run through [cont] succeeds, [cont] returns
    without asking anything, whatever the question argument is: the run
    gains the command and nothing else, [env] is as before, and the
    caller's next step runs. *)
Theorem cont_success_is_silent (cmd : string) (message : option string)
    (s : state) :
  returncode W (log s) cmd = 0%Z →
  let s' := {| env := env s; log := log s ++ [Ran cmd true 0%Z] |} in
  cont W cmd message s = (Ok (), s') ∧
  questions (log s') = questions (log s) ∧
  ∀ B (next : unit → M B), (x ← cont W cmd message; next x) s = next () s'.
Proof.
  intros Hcode s'.
  assert (Hcont : cont W cmd message s = (Ok (), s')).
  { rewrite cont_unfold. cbv zeta. rewrite Hcode.
    simpl. now rewrite andb_false_r. }
  split; [exact Hcont|]. split.
  - unfold questions, s'; simpl. rewrite omap_app. simpl.
    now rewrite app_nil_r.
  - intros B next. now apply bind_ok.
Qed.

(** C3.  When the command run through [cont] fails and the question is
    empty or [None], nobody is asked and the failure is ignored: [cont]
    returns, the run gains the command and nothing else, [env] is as
    before, and the caller's next step runs as it does after a success. *)
Theorem cont_failure_without_question (cmd : string)
    (message : option string) (s : state) :
  message = None ∨ message = Some "" →
  returncode W (log s) cmd ≠ 0%Z →
  let s' :=
    {| env := env s;
       log := log s ++ [Ran cmd true (returncode W (log s) cmd)] |} in
  cont W cmd message s = (Ok (), s') ∧
  questions (log s') = questions (log s) ∧
  ∀ B (next : unit → M B), (x ← cont W cmd message; next x) s = next () s'.
Proof.
  intros Hm _ s'.
  assert (Hcont : cont W cmd message s = (Ok (), s')).
  { rewrite cont_unfold. cbv zeta.
    now destruct Hm as [-> | ->]. }
  split; [exact Hcont|]. split.
  - unfold questions, s'; simpl. rewrite omap_app. simpl.
    now rewrite app_nil_r.
  - intros B next. now apply bind_ok.
Qed.

End ConfirmationWrapper.

(** The scenario of a failing command, the question "Continue?" and an
    operator who answers no. *)
Lemma cont_failure_asks_once_witness :
  cont all_fail_declined "false" (Some "Continue?") initial_state
  = (Raise (SystemExit 1 "Stopped execution per user request."),
     {| env := initial_env;
        log := [Ran "false" true 1%Z; Asked "Continue?" false] |}).
Proof.
  destruct (cont_failure_asks_once all_fail_declined "false" "Continue?"
              initial_state) as (Hs & _ & Hno & _);
    [discriminate | discriminate |].
  destruct (Hno eq_refl) as (Hr & _).
  rewrite (surjective_pairing (cont _ _ _ _)), Hs, Hr. reflexivity.
Defined.

Lemma cont_success_is_silent_witness :
  cont all_succeed "true" (Some "Continue?") initial_state
  = (Ok (), {| env := initial_env; log := [Ran "true" true 0%Z] |}).
Proof.
  apply (cont_success_is_silent all_succeed "true" (Some "Continue?")
           initial_state).
  reflexivity.
Defined.

Lemma cont_failure_without_question_witness :
  cont all_fail_declined "false" None initial_state
  = (Ok (), {| env := initial_env; log := [Ran "false" true 1%Z] |}).
Proof.
  apply (cont_failure_without_question all_fail_declined "false" None
           initial_state); [now left | discriminate].
Defined.

(** ** [env] is left alone *)

Section EnvPreserved.

Variable W : world.
Context {A B : Type}.

Lemma preserves_ret (a : A) : preserves_env (ret a).
Proof. intros s. reflexivity. Qed.

Lemma preserves_raise (e : exn) : preserves_env (@raise A e).
Proof. intros s. reflexivity. Qed.

Lemma preserves_abort msg : preserves_env (@abort A msg).
Proof. intros s. reflexivity. Qed.

Lemma preserves_lift (r : result A) : preserves_env (lift r).
Proof. intros s. reflexivity. Qed.

Lemma preserves_get_env : preserves_env get_env.
Proof. intros s. reflexivity. Qed.

Lemma preserves_bind (m : M A) (f : A → M B) :
  preserves_env m → (∀ a, preserves_env (f a)) → preserves_env (x ← m; f x).
Proof.
  intros Hm Hf s. unfold bind. specialize (Hm s).
  destruct (m s) as [[a|e] s1]; simpl in *; [|exact Hm].
  now rewrite Hf.
Qed.

Lemma preserves_if (b : bool) (m1 m2 : M A) :
  preserves_env m1 → preserves_env m2 →
  preserves_env (if b then m1 else m2).
Proof. now destruct b. Qed.

Lemma preserves_local cmd capture : preserves_env (local W cmd capture).
Proof.
  intros s. unfold local.
  destruct (failed _ && negb _); reflexivity.
Qed.

Lemma preserves_confirm q : preserves_env (confirm W q).
Proof. intros s. reflexivity. Qed.

(** A [settings] block whose body leaves the modified [env] alone gives
    back the [env] it started from. *)
Lemma preserves_settings key v (body : M A) :
  preserves_env body → preserves_env (settings key v body).
Proof.
  intros Hb s. unfold settings.
  specialize (Hb (with_env (<[key := v]> (env s)) s)).
  destruct (body _) as [r s1]; simpl in *.
  rewrite Hb. apply settings_restores.
Qed.

End EnvPreserved.

Create HintDb fab_env.
#[local] Hint Resolve preserves_ret preserves_raise preserves_abort
  preserves_lift preserves_get_env preserves_bind preserves_if
  preserves_local preserves_confirm preserves_settings : fab_env.

Section TasksPreserveEnv.

Variable W : world.

Lemma preserves_format_env t : preserves_env (format_env t).
Proof. unfold format_env. auto with fab_env. Qed.

Lemma preserves_format1 t name v : preserves_env (format1 t name v).
Proof. unfold format1. auto with fab_env. Qed.

Lemma preserves_cont cmd message : preserves_env (cont W cmd message).
Proof. unfold cont. auto 10 with fab_env. Qed.

Lemma preserves_for_each {X} (xs : list X) (body : X → M unit) :
  (∀ x, preserves_env (body x)) → preserves_env (for_each xs body).
Proof.
  intros Hb. induction xs as [|x xs IH]; simpl; auto with fab_env.
Qed.

End TasksPreserveEnv.

#[local] Hint Resolve preserves_format_env preserves_format1 preserves_cont
  preserves_for_each : fab_env.

Section TaskEnv.

Variable W : world.

Lemma preserves_syncdb : preserves_env (syncdb W).
Proof. unfold syncdb. auto with fab_env. Qed.

Lemma preserves_migrate app : preserves_env (migrate W app).
Proof. unfold migrate. auto 10 with fab_env. Qed.

Lemma preserves_collectstatic : preserves_env (collectstatic W).
Proof. unfold collectstatic. auto with fab_env. Qed.

Lemma preserves_compress : preserves_env (compress W).
Proof. unfold compress. auto with fab_env. Qed.

Lemma preserves_add_addon a : preserves_env (add_addon W a).
Proof. unfold add_addon. auto with fab_env. Qed.

Lemma preserves_add_config c : preserves_env (add_config W c).
Proof. unfold add_config. auto with fab_env. Qed.

Lemma preserves_update : preserves_env (update W).
Proof.
  unfold update.
  auto 12 using preserves_syncdb, preserves_migrate, preserves_collectstatic,
    preserves_compress with fab_env.
Qed.

End TaskEnv.

(** C8.  No task mutates the environment context: for each of the eleven
    tasks, whatever its arguments, whatever the commands and the operator
    do, and whether the task returns or is cut short, [env] after the task
    is [env] before it. *)
Theorem tasks_leave_env_unchanged (W : world) (s : state) :
  env (syncdb W s).2 = env s ∧
  (∀ app, env (migrate W app s).2 = env s) ∧
  (∀ app, env (south_init W app s).2 = env s) ∧
  (∀ app, env (south_update W app s).2 = env s) ∧
  env (collectstatic W s).2 = env s ∧
  env (compress W s).2 = env s ∧
  env (initialize W s).2 = env s ∧
  (∀ app, env (startapp W app s).2 = env s) ∧
  env (update W s).2 = env s ∧
  (∀ app, env (bootstrap W app s).2 = env s) ∧
  (∀ app, env (destroy W app s).2 = env s).
Proof.
  repeat split; try intros app.
  - apply preserves_syncdb.
  - apply preserves_migrate.
  - revert s. change (preserves_env (south_init W app)).
    unfold south_init. auto with fab_env.
  - revert s. change (preserves_env (south_update W app)).
    unfold south_update. auto with fab_env.
  - apply preserves_collectstatic.
  - apply preserves_compress.
  - revert s. change (preserves_env (initialize W)).
    unfold initialize. auto 12 with fab_env.
  - revert s. change (preserves_env (startapp W app)).
    unfold startapp. auto 10 with fab_env.
  - apply preserves_update.
  - revert s. change (preserves_env (bootstrap W app)).
    unfold bootstrap. cbv zeta.
    auto 20 using preserves_syncdb, preserves_migrate,
      preserves_collectstatic, preserves_compress, preserves_add_addon,
      preserves_add_config with fab_env.
  - revert s. change (preserves_env (destroy W app)).
    unfold destroy. auto with fab_env.
Qed.

(** ** The commands a task runs *)

Lemma commands_record_ran l cmd capture code :
  commands (l ++ [Ran cmd capture code]) = commands l ++ [cmd].
Proof. unfold commands. now rewrite omap_app. Qed.

Lemma commands_record_asked l q a :
  commands (l ++ [Asked q a]) = commands l.
Proof. unfold commands. rewrite omap_app. simpl. apply app_nil_r. Qed.

Section Issues.

Variable W : world.
Variable e : gmap string value.
Context {A B : Type}.

Lemma issues_ret (a : A) : issues e (ret a) [].
Proof.
  intros s r s' He [= <- <-]. split; [exact He|].
  exists []. now rewrite app_nil_r.
Qed.

Lemma issues_bind (m : M A) (f : A → M B) c1 c2 :
  issues e m c1 → (∀ a, issues e (f a) c2) →
  issues e (x ← m; f x) (c1 ++ c2).
Proof.
  intros Hm Hf s r s' He. unfold bind.
  destruct (m s) as [[a|x] s1] eqn:Em.
  - destruct (Hm _ _ _ He Em) as (He1 & ran1 & Hl1 & ->).
    intros Ef. destruct (Hf a _ _ _ He1 Ef) as (He2 & ran2 & Hl2 & Hr).
    split; [exact He2|]. exists (c1 ++ ran2). split.
    + now rewrite Hl2, Hl1, app_assoc.
    + destruct r; [now subst | now apply prefix_app].
  - intros [= <- <-].
    destruct (Hm _ _ _ He Em) as (He1 & ran1 & Hl1 & Hp).
    split; [exact He1|]. exists ran1. split; [exact Hl1|].
    now apply prefix_app_r.
Qed.

(** A step that only computes a value runs nothing. *)
Lemma issues_bind_pure (m : M A) (f : A → M B) a cmds :
  (∀ s, env s = e → m s = (Ok a, s)) →
  issues e (f a) cmds → issues e (x ← m; f x) cmds.
Proof.
  intros Hm Hf s r s' He. rewrite (bind_ok _ _ _ _ _ (Hm s He)).
  now apply Hf.
Qed.

Lemma issues_local cmd capture : issues e (local W cmd capture) [cmd].
Proof.
  intros s r s' He. unfold local.
  destruct (failed _ && negb _); intros [= <- <-];
    (split; [exact He|]); exists [cmd];
    (split; [apply commands_record_ran | reflexivity]).
Qed.

Lemma issues_cont cmd message : issues e (cont W cmd message) [cmd].
Proof.
  intros s r s' He. rewrite cont_unfold. cbv zeta.
  destruct (truthy_arg message && failed _).
  - destruct (operator_accepts W _ _); intros [= <- <-];
      (split; [exact He|]); exists [cmd]; simpl;
      rewrite commands_record_asked, commands_record_ran;
      (split; reflexivity).
  - intros [= <- <-]. split; [exact He|]. exists [cmd].
    split; [apply commands_record_ran | reflexivity].
Qed.

End Issues.

Lemma issues_for_each {X} e (xs : list X) (body : X → M unit)
    (cmd : X → string) :
  (∀ x, issues e (body x) [cmd x]) →
  issues e (for_each xs body) (map cmd xs).
Proof.
  intros Hb. induction xs as [|x xs IH]; simpl.
  - apply issues_ret.
  - apply (issues_bind e (body x) _ [cmd x]); auto.
Qed.

(** ** The strings the tasks format *)

Ltac format_field :=
  intros; unfold format1, lift, format; cbn -[lookup];
  rewrite !lookup_singleton_eq; cbn;
  rewrite ?append_empty_r; reflexivity.

Ltac format_run H :=
  intros; unfold format_env, get_env, lift, bind, format; cbn -[lookup];
  rewrite H; reflexivity.

Lemma format_create app s :
  format1 "heroku apps:create {app}" "app" app s
  = (Ok ("heroku apps:create " +:+ app), s).
Proof. format_field. Qed.

Lemma format_destroy app s :
  format1 "heroku apps:destroy --app {app}" "app" app s
  = (Ok ("heroku apps:destroy --app " +:+ app), s).
Proof. format_field. Qed.

Lemma format_addon_command addon s :
  format1 "heroku addons:add {addon}" "addon" addon s
  = (Ok (addon_command addon), s).
Proof. format_field. Qed.

Lemma format_addon_question addon s :
  format1 "Couldn't add {addon} to your Heroku app, continue anyway?"
    "addon" addon s
  = (Ok ("Couldn't add " +:+ addon
           +:+ " to your Heroku app, continue anyway?"), s).
Proof. format_field. Qed.

(** The template of the configuration push has no replacement field, so
    formatting it gives the template back whatever [config] is. *)
Lemma format_config_command config s :
  format1 "heroku config:add config" "config" config s
  = (Ok "heroku config:add config", s).
Proof. reflexivity. Qed.

Lemma format_config_question config s :
  format1 "Couldn't add config to your Heroku app, continue anyway?"
    "config" config s
  = (Ok "Couldn't add config to your Heroku app, continue anyway?", s).
Proof. reflexivity. Qed.

Section RunTemplates.

Variables (s : state) (run : value).
Hypothesis Hrun : env s !! "run" = Some run.

Lemma format_syncdb :
  format_env "{run} syncdb --noinput" s
  = (Ok (str run +:+ " syncdb --noinput"), s).
Proof. format_run Hrun. Qed.

Lemma format_migrate :
  format_env "{run} migrate --noinput" s
  = (Ok (str run +:+ " migrate --noinput"), s).
Proof. format_run Hrun. Qed.

Lemma format_collectstatic :
  format_env "{run} collectstatic --noinput" s
  = (Ok (str run +:+ " collectstatic --noinput"), s).
Proof. format_run Hrun. Qed.

Lemma format_compress :
  format_env "{run} compress" s = (Ok (str run +:+ " compress"), s).
Proof. format_run Hrun. Qed.

Lemma format_newrelic :
  format_env "{run} newrelic-admin validate-config - stdout" s
  = (Ok (str run +:+ " newrelic-admin validate-config - stdout"), s).
Proof. format_run Hrun. Qed.

End RunTemplates.

Section TaskCommands.

Variable W : world.

Lemma add_addon_unfold addon s :
  add_addon W addon s
  = cont W (addon_command addon)
      (Some ("Couldn't add " +:+ addon
               +:+ " to your Heroku app, continue anyway?")) s.
Proof.
  unfold add_addon.
  rewrite (bind_ok _ _ _ _ _ (format_addon_command addon s)).
  now rewrite (bind_ok _ _ _ _ _ (format_addon_question addon s)).
Qed.

Lemma add_config_unfold config s :
  add_config W config s
  = cont W "heroku config:add config"
      (Some "Couldn't add config to your Heroku app, continue anyway?") s.
Proof.
  unfold add_config.
  rewrite (bind_ok _ _ _ _ _ (format_config_command config s)).
  now rewrite (bind_ok _ _ _ _ _ (format_config_question config s)).
Qed.

Lemma issues_add_addon e addon :
  issues e (add_addon W addon) [addon_command addon].
Proof.
  intros s r s' He. rewrite add_addon_unfold. now apply issues_cont.
Qed.

Lemma issues_add_config e config :
  issues e (add_config W config) [config_command config].
Proof.
  intros s r s' He. rewrite add_config_unfold. now apply issues_cont.
Qed.

Variables (e : gmap string value) (run : value).
Hypothesis Hrun : e !! "run" = Some run.

Lemma issues_run_step (template cmd : string) :
  (∀ s, env s = e → format_env template s = (Ok cmd, s)) →
  issues e (c ← format_env template; local W c false;; ret ()) [cmd].
Proof.
  intros Hf. apply issues_bind_pure with (a := cmd); [exact Hf|].
  change [cmd] with ([cmd] ++ []).
  apply issues_bind; [apply issues_local | intros; apply issues_ret].
Qed.

Lemma issues_syncdb :
  issues e (syncdb W) [str run +:+ " syncdb --noinput"].
Proof.
  apply issues_run_step. intros s He. apply format_syncdb. now rewrite He.
Qed.

Lemma issues_migrate_all :
  issues e (migrate W None) [str run +:+ " migrate --noinput"].
Proof.
  apply issues_run_step. intros s He. apply format_migrate. now rewrite He.
Qed.

Lemma issues_collectstatic :
  issues e (collectstatic W) [str run +:+ " collectstatic --noinput"].
Proof.
  apply issues_run_step. intros s He. apply format_collectstatic.
  now rewrite He.
Qed.

Lemma issues_compress : issues e (compress W) [str run +:+ " compress"].
Proof.
  apply issues_run_step. intros s He. apply format_compress. now rewrite He.
Qed.

Lemma issues_update : issues e (update W) (deploy_commands (str run)).
Proof.
  unfold update, deploy_commands.
  apply (issues_bind e _ _ [_] (_ :: _)); [apply issues_cont | intros _].
  apply (issues_bind e _ _ [_] (_ :: _)); [apply issues_syncdb | intros _].
  apply (issues_bind e _ _ [_] (_ :: _)); [apply issues_migrate_all | intros _].
  apply (issues_bind e _ _ [_] (_ :: _)); [apply issues_collectstatic | intros _].
  apply (issues_bind e _ _ [_] (_ :: _)); [apply issues_compress | intros _].
  apply issues_bind_pure
    with (a := str run +:+ " newrelic-admin validate-config - stdout").
  - intros s He. apply format_newrelic. now rewrite He.
  - apply issues_cont.
Qed.

End TaskCommands.

Section BootstrapCommands.

Variable W : world.
Variables (e : gmap string value) (run : value).
Hypothesis Hrun : e !! "run" = Some run.

Lemma issues_bootstrap app :
  issues e (bootstrap W app) (bootstrap_commands app (str run)).
Proof.
  unfold bootstrap, bootstrap_commands. cbv zeta.
  apply issues_bind_pure
    with (a := "heroku apps:create " +:+ app_or app bootstrap_default).
  { intros s _. apply format_create. }
  apply (issues_bind e _ _ [_]); [apply issues_cont | intros _].
  apply issues_bind.
  { apply issues_for_each. intros addon. apply issues_add_addon. }
  intros _. apply issues_bind.
  { apply issues_for_each. intros config. apply issues_add_config. }
  intros _. now apply (issues_update W e run).
Qed.

End BootstrapCommands.

Lemma filter_prefix {X} (p : X → bool) (l1 l2 : list X) :
  l1 `prefix_of` l2 → List.filter p l1 `prefix_of` List.filter p l2.
Proof.
  intros [k ->]. rewrite List.filter_app. now apply prefix_app_r.
Qed.

Lemma create_is_no_addon_install app :
  is_addon_install ("heroku apps:create " +:+ app) = false.
Proof. reflexivity. Qed.

Lemma addon_installs_of_plan app run :
  Forall (λ c, is_addon_install c = false) (deploy_commands run) →
  List.filter is_addon_install (bootstrap_commands app run)
  = map addon_command HEROKU_ADDONS.
Proof.
  intros Hd. unfold bootstrap_commands.
  cbn [List.filter]. rewrite create_is_no_addon_install.
  rewrite !List.filter_app.
  replace (List.filter is_addon_install (deploy_commands run)) with (@nil string).
  - reflexivity.
  - symmetry. induction Hd as [|c l Hc _ IH]; simpl; [reflexivity|].
    now rewrite Hc.
Qed.

(** ** The bootstrap catalogs *)

(** C4 (what the code does).  The configuration loop of bootstrap runs one
    push per catalog entry, but the command it formats has no replacement
    field: for every entry the command is the literal
    [heroku config:add config], which contains none of the catalog's
    key=value strings. *)
Theorem bootstrap_pushes_literal_config :
  (∀ W config s,
     add_config W config s
     = cont W "heroku config:add config"
         (Some "Couldn't add config to your Heroku app, continue anyway?") s) ∧
  commands (log (bootstrap all_succeed None initial_state).2)
  = "heroku apps:create {{ project_name}}"
      :: map addon_command HEROKU_ADDONS
      ++ repeat "heroku config:add config" (length HEROKU_CONFIGS)
      ++ deploy_commands "heroku run python manage.py" ∧
  Forall (λ config, contains "heroku config:add config" config = false)
    HEROKU_CONFIGS.
Proof.
  split; [intros; apply add_config_unfold|].
  split; [vm_compute; reflexivity | repeat constructor].
Qed.

(** ** Runs in which every command succeeds *)

Section AllSucceed.

Variable W : world.
Hypothesis Hok : ∀ history cmd, returncode W history cmd = 0%Z.

Lemma local_ok cmd capture s :
  local W cmd capture s = (Ok false, record (Ran cmd capture 0%Z) s).
Proof. unfold local. now rewrite Hok. Qed.

Lemma cont_ok cmd message s :
  cont W cmd message s = (Ok (), record (Ran cmd true 0%Z) s).
Proof.
  rewrite cont_unfold. cbv zeta. rewrite Hok. simpl.
  now rewrite andb_false_r.
Qed.

Lemma run_step_ok template cmd s :
  format_env template s = (Ok cmd, s) →
  (c ← format_env template; local W c false;; ret ()) s
  = (Ok (), record (Ran cmd false 0%Z) s).
Proof.
  intros Hf. rewrite (bind_ok _ _ _ _ _ Hf).
  now rewrite (bind_ok _ _ _ _ _ (local_ok cmd false s)).
Qed.

End AllSucceed.

(** ** The update task *)

(** C7.  When every command succeeds, update runs, in this order and
    skipping none: the code push, the database sync, the migration without
    an app argument (the whole-site [migrate --noinput]), the static
    collection, the compression and the New Relic check; it then returns. *)
Theorem update_runs_every_step_in_order (W : world) (s : state)
    (run : value) :
  (∀ history cmd, returncode W history cmd = 0%Z) →
  env s !! "run" = Some run →
  update W s
  = (Ok (),
     {| env := env s;
        log := log s ++ [
          Ran "git push heroku master" true 0%Z;
          Ran (str run +:+ " syncdb --noinput") false 0%Z;
          Ran (str run +:+ " migrate --noinput") false 0%Z;
          Ran (str run +:+ " collectstatic --noinput") false 0%Z;
          Ran (str run +:+ " compress") false 0%Z;
          Ran (str run +:+ " newrelic-admin validate-config - stdout")
            true 0%Z
        ] |}).
Proof.
  intros Hok Hrun. unfold update.
  rewrite (bind_ok _ _ _ _ _ (cont_ok W Hok _ _ s)).
  unfold syncdb.
  erewrite bind_ok
    by (apply (run_step_ok W Hok); apply (format_syncdb _ run); exact Hrun).
  unfold migrate. cbn [truthy_arg].
  erewrite bind_ok
    by (apply (run_step_ok W Hok); apply (format_migrate _ run); exact Hrun).
  unfold collectstatic.
  erewrite bind_ok
    by (apply (run_step_ok W Hok); apply (format_collectstatic _ run);
        exact Hrun).
  unfold compress.
  erewrite bind_ok
    by (apply (run_step_ok W Hok); apply (format_compress _ run); exact Hrun).
  erewrite bind_ok by (apply (format_newrelic _ run); exact Hrun).
  rewrite (cont_ok W Hok).
  unfold record; cbn [env log]. rewrite <- !app_assoc. reflexivity.
Qed.

Lemma update_runs_every_step_in_order_witness :
  update all_succeed initial_state
  = (Ok (),
     {| env := initial_env;
        log := [
          Ran "git push heroku master" true 0%Z;
          Ran "heroku run python manage.py syncdb --noinput" false 0%Z;
          Ran "heroku run python manage.py migrate --noinput" false 0%Z;
          Ran "heroku run python manage.py collectstatic --noinput" false 0%Z;
          Ran "heroku run python manage.py compress" false 0%Z;
          Ran "heroku run python manage.py newrelic-admin validate-config - stdout"
            true 0%Z
        ] |}).
Proof.
  apply (update_runs_every_step_in_order all_succeed initial_state
           (VStr "heroku run python manage.py")).
  - reflexivity.
  - reflexivity.
Defined.

(** ** Bootstrap and update *)

Lemma bootstrap_split (W : world) (app : option string) (s : state) :
  bootstrap W app s = (bootstrap_provision W app;; update W) s.
Proof.
  unfold bootstrap, bootstrap_provision. cbv zeta.
  rewrite bind_assoc. apply bind_ext. intros cmd s1.
  rewrite bind_assoc. apply bind_ext. intros _ s2.
  rewrite bind_assoc. apply bind_ext. intros _ s3.
  reflexivity.
Qed.

(** C9.  Whatever the application name, the commands' outcomes and the
    operator's answers: once bootstrap is through its configuration loop, in
    state [s1], the rest of its run is the run of update from [s1] (the same
    steps with the same wrapping and questions, hence the same events,
    result and final state); if the run is cut short before that, update's
    steps are not reached. *)
Theorem bootstrap_tail_is_update (W : world) (app : option string)
    (s : state) :
  match bootstrap_provision W app s with
  | (Ok _, s1) => bootstrap W app s = update W s1
  | (Raise e, s1) => bootstrap W app s = (Raise e, s1)
  end.
Proof.
  destruct (bootstrap_provision W app s) as [[[]|e] s1] eqn:Ep;
    rewrite bootstrap_split.
  - exact (bind_ok _ (λ _, update W) _ _ _ Ep).
  - exact (bind_raise _ (λ _, update W) _ _ _ Ep).
Qed.

(** ** Destroy *)

(** C10.  Destroy runs its teardown command directly.  For every
    application name it runs that one command, uncaptured and outside any
    [settings] block, and asks the operator nothing; what it does is the
    same whatever the operator would answer; and when the command fails
    under Fabric's default ([env.warn_only] false) the run ends there with
    [SystemExit(1)] and Fabric's own error, with no question asked. *)
Theorem destroy_is_not_wrapped (W : world) (app : option string)
    (s : state) :
  let cmd := "heroku apps:destroy --app " +:+ app_or app destroy_default in
  let code := returncode W (log s) cmd in
  destroy W app s
    = (if failed code && negb (warn_only (env s))
       then Raise (SystemExit 1 (local_error code cmd))
       else Ok (),
       {| env := env s; log := log s ++ [Ran cmd false code] |}) ∧
  questions (log (destroy W app s).2) = questions (log s) ∧
  (∀ answers,
     destroy (World (returncode W) answers) app s = destroy W app s) ∧
  (code ≠ 0%Z → warn_only (env s) = false →
     (destroy W app s).1 = Raise (SystemExit 1 (local_error code cmd)) ∧
     exit_status (destroy W app s).1 ≠ 0%Z).
Proof.
  intros cmd code.
  assert (Hd : ∀ W', returncode W' = returncode W →
            destroy W' app s
            = (if failed code && negb (warn_only (env s))
               then Raise (SystemExit 1 (local_error code cmd))
               else Ok (),
               record (Ran cmd false code) s)).
  { intros W' HW'. unfold destroy. cbv zeta.
    rewrite (bind_ok _ _ _ _ _ (format_destroy _ s)). fold cmd.
    unfold bind, local. rewrite HW'. fold code.
    destruct (failed code && negb (warn_only (env s))); reflexivity. }
  rewrite (Hd W eq_refl). cbn [fst snd].
  split; [reflexivity|]. split; [|split].
  - unfold questions, record; cbn [log]. rewrite omap_app. simpl.
    apply app_nil_r.
  - intros answers. now rewrite (Hd (World (returncode W) answers)).
  - intros Hcode Hwarn. unfold failed.
    destruct (Z.eqb_spec code 0) as [E|_]; [contradiction|].
    rewrite Hwarn. split; [reflexivity | discriminate].
Qed.

Lemma destroy_is_not_wrapped_witness :
  (destroy all_fail_accepted None initial_state).1
  = Raise (SystemExit 1
      (local_error 1 "heroku apps:destroy --app {{ project_name }}")).
Proof.
  destruct (destroy_is_not_wrapped all_fail_accepted None initial_state)
    as (_ & _ & _ & Hfatal).
  apply Hfatal; [discriminate | reflexivity].
Defined.

(** ** The questions a task asks *)

Lemma questions_record_ran l cmd capture code :
  questions (l ++ [Ran cmd capture code]) = questions l.
Proof. unfold questions. rewrite omap_app. simpl. apply app_nil_r. Qed.

Lemma questions_record_asked l q a :
  questions (l ++ [Asked q a]) = questions l ++ [q].
Proof. unfold questions. now rewrite omap_app. Qed.

Section Asks.

Variable W : world.
Context {A B : Type}.

Lemma asks_ret (a : A) : asks (ret a) [].
Proof. intros s. exists []. simpl. now rewrite app_nil_r. Qed.

Lemma asks_lift (r : result A) : asks (lift r) [].
Proof. intros s. exists []. simpl. now rewrite app_nil_r. Qed.

Lemma asks_get_env : asks get_env [].
Proof. intros s. exists []. simpl. now rewrite app_nil_r. Qed.

Lemma asks_bind (m : M A) (f : A → M B) q1 q2 :
  asks m q1 → (∀ a, asks (f a) q2) → asks (x ← m; f x) (q1 ++ q2).
Proof.
  intros Hm Hf s. unfold bind.
  destruct (Hm s) as (a1 & Hl1 & Hs1).
  destruct (m s) as [[a|e] s1]; simpl in *.
  - destruct (Hf a s1) as (a2 & Hl2 & Hs2).
    exists (a1 ++ a2). split.
    + now rewrite Hl2, Hl1, app_assoc.
    + now apply sublist_app.
  - exists a1. split; [exact Hl1|].
    now apply sublist_inserts_r.
Qed.

Lemma asks_ext (m m' : M A) qs :
  (∀ s, m s = m' s) → asks m' qs → asks m qs.
Proof. intros E Hm s. rewrite E. apply Hm. Qed.

Lemma asks_local cmd capture : asks (local W cmd capture) [].
Proof.
  intros s. exists []. rewrite app_nil_r. split; [|constructor].
  unfold local. destruct (failed _ && negb _); simpl;
    apply questions_record_ran.
Qed.

Lemma asks_cont cmd q : asks (cont W cmd (Some q)) [q].
Proof.
  intros s. rewrite cont_unfold. cbv zeta.
  destruct (truthy_arg (Some q) && failed _).
  - exists [q]. split; [|reflexivity].
    destruct (operator_accepts W _ _); simpl;
      now rewrite questions_record_asked, questions_record_ran.
  - exists []. rewrite app_nil_r. split.
    + simpl. apply questions_record_ran.
    + apply sublist_nil_l.
Qed.

End Asks.

Lemma asks_for_each {X} (xs : list X) (body : X → M unit)
    (q : X → string) :
  (∀ x, asks (body x) [q x]) → asks (for_each xs body) (map q xs).
Proof.
  intros Hb. induction xs as [|x xs IH]; simpl.
  - apply asks_ret.
  - apply (asks_bind (body x) _ [q x]); auto.
Qed.

(** A step that formats a command from [env] and runs it directly. *)
Lemma asks_run_step W template :
  asks (c ← format_env template; local W c false;; ret ()) [].
Proof.
  unfold format_env.
  apply (asks_bind _ _ [] []).
  { apply (asks_bind _ _ [] []); [apply asks_get_env|].
    intros e. apply asks_lift. }
  intros c. apply (asks_bind _ _ [] []); [apply asks_local|].
  intros _. apply asks_ret.
Qed.

Lemma asks_format1_step W template name v :
  asks (c ← format1 template name v; local W c false;; ret ()) [].
Proof.
  apply (asks_bind _ _ [] []); [apply asks_lift|].
  intros c. apply (asks_bind _ _ [] []); [apply asks_local|].
  intros _. apply asks_ret.
Qed.

Lemma asks_nothing {A} (m : M A) :
  asks m [] → ∀ s, questions (log (m s).2) = questions (log s).
Proof.
  intros Hm s. destruct (Hm s) as (asked & Hl & Hs).
  apply sublist_nil_r in Hs. subst asked. now rewrite app_nil_r in Hl.
Qed.

Section TaskQuestions.

Variable W : world.

Lemma asks_syncdb : asks (syncdb W) [].
Proof. apply asks_run_step. Qed.

Lemma asks_migrate app : asks (migrate W app) [].
Proof.
  unfold migrate. destruct (truthy_arg app); [|apply asks_run_step].
  apply (asks_bind _ _ [] []); [apply asks_get_env | intros e].
  apply (asks_bind _ _ [] []); [apply asks_lift | intros kw].
  apply (asks_bind _ _ [] []); [apply asks_lift | intros cmd].
  apply (asks_bind _ _ [] []); [apply asks_local | intros _].
  apply asks_ret.
Qed.

Lemma asks_collectstatic : asks (collectstatic W) [].
Proof. apply asks_run_step. Qed.

Lemma asks_compress : asks (compress W) [].
Proof. apply asks_run_step. Qed.

Lemma asks_initialize : asks (initialize W) [].
Proof.
  unfold initialize.
  repeat (apply (asks_bind _ _ [] []); [apply asks_local | intros _]).
  apply asks_ret.
Qed.

Lemma asks_startapp app : asks (startapp W app) [].
Proof.
  unfold startapp.
  apply (asks_bind _ _ [] []); [apply asks_lift | intros c1].
  apply (asks_bind _ _ [] []); [apply asks_local | intros _].
  apply asks_format1_step.
Qed.

Lemma asks_update : asks (update W) [push_question; newrelic_question].
Proof.
  unfold update.
  apply (asks_bind _ _ [push_question] [newrelic_question]);
    [apply asks_cont | intros _].
  apply (asks_bind _ _ [] [_]); [apply asks_syncdb | intros _].
  apply (asks_bind _ _ [] [_]); [apply asks_migrate | intros _].
  apply (asks_bind _ _ [] [_]); [apply asks_collectstatic | intros _].
  apply (asks_bind _ _ [] [_]); [apply asks_compress | intros _].
  apply (asks_bind _ _ [] [_]).
  - unfold format_env. apply (asks_bind _ _ [] []); [apply asks_get_env|].
    intros e. apply asks_lift.
  - intros cmd. apply asks_cont.
Qed.

Lemma asks_add_addon addon : asks (add_addon W addon) [addon_question addon].
Proof.
  apply (asks_ext _ _ _ (add_addon_unfold W addon)). apply asks_cont.
Qed.

Lemma asks_add_config config : asks (add_config W config) [config_question].
Proof.
  apply (asks_ext _ _ _ (add_config_unfold W config)). apply asks_cont.
Qed.

Lemma asks_bootstrap app : asks (bootstrap W app) bootstrap_questions.
Proof.
  unfold bootstrap, bootstrap_questions. cbv zeta.
  apply (asks_bind _ _ [] (_ :: _)); [apply asks_lift | intros cmd].
  apply (asks_bind _ _ [create_question]); [apply asks_cont | intros _].
  apply asks_bind.
  { apply asks_for_each. intros addon. apply asks_add_addon. }
  intros _. apply asks_bind.
  { apply (asks_for_each _ _ (λ _, config_question)).
    intros config. apply asks_add_config. }
  intros _. apply asks_update.
Qed.

End TaskQuestions.

(** ** What the deployment tasks may ask *)

(** X1.  In every run of update, whatever fails and whatever the operator
    answers, the only questions put to the operator are the one about the
    code push and the one about New Relic, each at most once and in that
    order; the database and asset steps never ask. *)
Theorem update_asks_only_about_push_and_newrelic (W : world) (s : state) :
  ∃ asked,
    questions (log (update W s).2) = questions (log s) ++ asked ∧
    asked `sublist_of` [
      "Couldn't push your application to Heroku, continue anyway?";
      "Couldn't initialize New Relic, continue anyway?"
    ].
Proof. apply asks_update. Qed.

(** X2.  In every run of bootstrap the questions put to the operator are
    some of: the one about creating the app, one per add-on naming that
    add-on, one per configuration entry (the same literal text each time),
    the one about the push and the one about New Relic, in that order and
    each at most once. *)
Theorem bootstrap_asks_only_its_questions (W : world)
    (app : option string) (s : state) :
  ∃ asked,
    questions (log (bootstrap W app s).2) = questions (log s) ++ asked ∧
    asked `sublist_of`
      "Couldn't create the Heroku app, continue anyway?"
        :: map (λ addon, "Couldn't add " +:+ addon
                           +:+ " to your Heroku app, continue anyway?")
             HEROKU_ADDONS
        ++ repeat "Couldn't add config to your Heroku app, continue anyway?"
             (length HEROKU_CONFIGS)
        ++ ["Couldn't push your application to Heroku, continue anyway?";
            "Couldn't initialize New Relic, continue anyway?"].
Proof. apply asks_bootstrap. Qed.

(** ** Tasks that run their commands directly *)

(** X3.  The tasks that never go through [cont] (syncdb, migrate,
    south_init, south_update, collectstatic, compress, initialize,
    startapp) put no question to the operator in any run, and what they do
    is the same whatever the operator would answer. *)
Theorem direct_tasks_never_ask (W : world) (s : state) :
  (questions (log (syncdb W s).2) = questions (log s) ∧
   ∀ answers, syncdb (World (returncode W) answers) s = syncdb W s) ∧
  (∀ app,
     questions (log (migrate W app s).2) = questions (log s) ∧
     ∀ answers, migrate (World (returncode W) answers) app s
                = migrate W app s) ∧
  (∀ app,
     questions (log (south_init W app s).2) = questions (log s) ∧
     ∀ answers, south_init (World (returncode W) answers) app s
                = south_init W app s) ∧
  (∀ app,
     questions (log (south_update W app s).2) = questions (log s) ∧
     ∀ answers, south_update (World (returncode W) answers) app s
                = south_update W app s) ∧
  (questions (log (collectstatic W s).2) = questions (log s) ∧
   ∀ answers,
     collectstatic (World (returncode W) answers) s = collectstatic W s) ∧
  (questions (log (compress W s).2) = questions (log s) ∧
   ∀ answers, compress (World (returncode W) answers) s = compress W s) ∧
  (questions (log (initialize W s).2) = questions (log s) ∧
   ∀ answers, initialize (World (returncode W) answers) s = initialize W s) ∧
  (∀ app,
     questions (log (startapp W app s).2) = questions (log s) ∧
     ∀ answers, startapp (World (returncode W) answers) app s
                = startapp W app s).
Proof.
  assert (Hlocal : ∀ answers,
            local (World (returncode W) answers) = local W)
    by reflexivity.
  split; [split; [apply asks_nothing, asks_syncdb|]|].
  { intros answers. unfold syncdb. now rewrite Hlocal. }
  split; [intros app; split; [apply asks_nothing, asks_migrate|]|].
  { intros answers. unfold migrate. now rewrite Hlocal. }
  split; [intros app; split|].
  { apply asks_nothing. unfold south_init. apply asks_format1_step. }
  { intros answers. unfold south_init. now rewrite Hlocal. }
  split; [intros app; split|].
  { apply asks_nothing. unfold south_update. apply asks_format1_step. }
  { intros answers. unfold south_update. now rewrite Hlocal. }
  split; [split; [apply asks_nothing, asks_collectstatic|]|].
  { intros answers. unfold collectstatic. now rewrite Hlocal. }
  split; [split; [apply asks_nothing, asks_compress|]|].
  { intros answers. unfold compress. now rewrite Hlocal. }
  split; [split; [apply asks_nothing, asks_initialize|]|].
  { intros answers. unfold initialize. now rewrite Hlocal. }
  intros app; split; [apply asks_nothing, asks_startapp|].
  intros answers. unfold startapp. now rewrite Hlocal.
Qed.

(** ** The tasks one by one *)

Lemma direct_step W cmd s :
  (local W cmd false;; ret ()) s = run_directly W cmd s.
Proof.
  unfold bind, local, run_directly. cbv zeta.
  destruct (failed _ && negb _); reflexivity.
Qed.

Lemma format_env_missing_run template s :
  env s !! "run" = None →
  format ("{run}" +:+ template) (env s) = Raise (KeyError "run").
Proof.
  intros Hrun. unfold format.
  change ("{run}" +:+ template)
    with (String "{" (String "r" (String "u" (String "n"
            (String "}" template))))).
  cbn -[lookup]. now rewrite Hrun.
Qed.

(** X6.  The tasks that build their command from [env] need [env.run]:
    when the key is missing, syncdb, migrate (with or without an app),
    collectstatic and compress raise [KeyError('run')] before running
    anything, and leave the state as it was. *)
Theorem heroku_tasks_need_run_key (W : world) (s : state) :
  env s !! "run" = None →
  syncdb W s = (Raise (KeyError "run"), s) ∧
  migrate W None s = (Raise (KeyError "run"), s) ∧
  (∀ app, app ≠ "" → env s !! "app" = None →
     migrate W (Some app) s = (Raise (KeyError "run"), s)) ∧
  collectstatic W s = (Raise (KeyError "run"), s) ∧
  compress W s = (Raise (KeyError "run"), s).
Proof.
  intros Hrun.
  assert (Hstep : ∀ template,
            (c ← format_env ("{run}" +:+ template); local W c false;; ret ()) s
            = (Raise (KeyError "run"), s)).
  { intros template. apply bind_raise.
    unfold format_env, get_env, bind, lift.
    now rewrite format_env_missing_run. }
  split; [apply (Hstep " syncdb --noinput")|].
  split; [apply (Hstep " migrate --noinput")|].
  split; [|split; [apply (Hstep " collectstatic --noinput")
                  | apply (Hstep " compress")]].
  intros app Happ Hkey. unfold migrate.
  replace (truthy_arg (Some app)) with true by (now destruct app).
  unfold get_env, kwargs, lift, bind. rewrite Hkey. cbn [default id].
  change "{run} migrate {app} --noinput"
    with ("{run}" +:+ " migrate {app} --noinput").
  pose proof (format_env_missing_run " migrate {app} --noinput"
                (with_env (<["app" := VStr app]> (env s)) s)) as Hf.
  cbn [with_env env] in Hf. rewrite Hf; [reflexivity|].
  now rewrite lookup_insert_ne.
Qed.

Lemma heroku_tasks_need_run_key_witness :
  syncdb all_succeed {| env := ∅; log := [] |}
  = (Raise (KeyError "run"), {| env := ∅; log := [] |}).
Proof.
  apply (heroku_tasks_need_run_key all_succeed {| env := ∅; log := [] |}).
  reflexivity.
Defined.

Lemma format_migrate_app (e : gmap string value) app run :
  e !! "run" = Some run →
  format "{run} migrate {app} --noinput" (<["app" := VStr app]> e)
  = Ok (str run +:+ " migrate " +:+ app +:+ " --noinput").
Proof.
  intros Hrun. unfold format. cbn -[lookup insert].
  rewrite lookup_insert_ne by discriminate. rewrite Hrun.
  rewrite lookup_insert_eq. reflexivity.
Qed.

(** X7.  migrate chooses its command by its argument.  An empty app name
    counts as none (whole-site migration).  With a non-empty app name the
    one command run directly is [<run> migrate <app> --noinput], provided
    [env] has no key [app] of its own; if it has one, passing [app] next to
    the unpacked [env] is a [TypeError] and nothing is run. *)
Theorem migrate_by_app (W : world) (s : state) :
  migrate W (Some "") s = migrate W None s ∧
  (∀ app v, app ≠ "" → env s !! "app" = Some v →
     migrate W (Some app) s = (Raise TypeError, s)) ∧
  (∀ app run, app ≠ "" → env s !! "app" = None →
     env s !! "run" = Some run →
     migrate W (Some app) s
     = run_directly W (str run +:+ " migrate " +:+ app +:+ " --noinput") s).
Proof.
  split; [reflexivity|]. split.
  - intros app v Happ Hkey. unfold migrate.
    replace (truthy_arg (Some app)) with true by (now destruct app).
    unfold get_env, kwargs, lift, bind. now rewrite Hkey.
  - intros app run Happ Hkey Hrun. unfold migrate.
    replace (truthy_arg (Some app)) with true by (now destruct app).
    rewrite <- direct_step.
    unfold get_env, kwargs, lift. unfold bind at 1 2 3.
    rewrite Hkey. cbn [default id].
    now rewrite (format_migrate_app (env s) app run Hrun).
Qed.

Lemma migrate_by_app_witness :
  migrate only_push_succeeds (Some "blog") initial_state
  = run_directly only_push_succeeds
      ("heroku run python manage.py" +:+ " migrate " +:+ "blog"
         +:+ " --noinput") initial_state.
Proof.
  destruct (migrate_by_app only_push_succeeds initial_state)
    as (_ & _ & Hone).
  apply (Hone "blog" (VStr "heroku run python manage.py"));
    [discriminate | reflexivity | reflexivity].
Defined.

(** X8.  With [env.run] set, each of syncdb, whole-site migrate,
    collectstatic and compress runs exactly one command, directly: the
    value of [env.run] followed by the management command.  A failure of
    that command ends the run with [SystemExit(1)] and Fabric's error unless
    [env.warn_only] is set, in which case the task returns. *)
Theorem heroku_tasks_run_one_command (W : world) (s : state) (run : value) :
  env s !! "run" = Some run →
  syncdb W s = run_directly W (str run +:+ " syncdb --noinput") s ∧
  migrate W None s = run_directly W (str run +:+ " migrate --noinput") s ∧
  collectstatic W s
  = run_directly W (str run +:+ " collectstatic --noinput") s ∧
  compress W s = run_directly W (str run +:+ " compress") s.
Proof.
  intros Hrun.
  assert (Hstep : ∀ template cmd,
            format_env template s = (Ok cmd, s) →
            (c ← format_env template; local W c false;; ret ()) s
            = run_directly W cmd s).
  { intros template cmd Hf. rewrite (bind_ok _ _ _ _ _ Hf).
    apply direct_step. }
  split; [apply Hstep, (format_syncdb s run Hrun)|].
  split; [apply Hstep, (format_migrate s run Hrun)|].
  split; [apply Hstep, (format_collectstatic s run Hrun)|].
  apply Hstep, (format_compress s run Hrun).
Qed.

Lemma heroku_tasks_run_one_command_witness :
  syncdb only_push_succeeds initial_state
  = run_directly only_push_succeeds
      ("heroku run python manage.py" +:+ " syncdb --noinput") initial_state.
Proof.
  apply (heroku_tasks_run_one_command only_push_succeeds initial_state
           (VStr "heroku run python manage.py")).
  reflexivity.
Defined.

Lemma format_south_init app s :
  format1 "python manage.py schemamigration {app} --initial" "app" app s
  = (Ok ("python manage.py schemamigration " +:+ app +:+ " --initial"), s).
Proof. format_field. Qed.

Lemma format_south_update app s :
  format1 "python manage.py schemamigration {app} --auto" "app" app s
  = (Ok ("python manage.py schemamigration " +:+ app +:+ " --auto"), s).
Proof. format_field. Qed.

(** X9.  south_init and south_update run one local [manage.py
    schemamigration] command for the given app, with [--initial] and
    [--auto]; they read nothing from [env] but [warn_only], so they work
    without [env.run], and the app name is put in as it is (braces in it are
    not read as fields). *)
Theorem south_tasks_run_one_command (W : world) (app : string) (s : state) :
  south_init W app s
  = run_directly W
      ("python manage.py schemamigration " +:+ app +:+ " --initial") s ∧
  south_update W app s
  = run_directly W
      ("python manage.py schemamigration " +:+ app +:+ " --auto") s.
Proof.
  split.
  - unfold south_init. rewrite (bind_ok _ _ _ _ _ (format_south_init app s)).
    apply direct_step.
  - unfold south_update.
    rewrite (bind_ok _ _ _ _ _ (format_south_update app s)).
    apply direct_step.
Qed.

Lemma format_mkdir app s :
  format1 "mkdir {{ project_name }}/apps/{app}" "app" app s
  = (Ok ("mkdir { project_name }/apps/" +:+ app), s).
Proof. format_field. Qed.

Lemma format_startapp app s :
  format1 "python manage.py startapp {app} {{ project_name }}/apps/{app}"
    "app" app s
  = (Ok ("python manage.py startapp " +:+ app
           +:+ " { project_name }/apps/" +:+ app), s).
Proof. format_field. Qed.

Section ProjectTasks.

Variable W : world.
Variable e : gmap string value.

Lemma issues_initialize : issues e (initialize W) initialize_commands.
Proof.
  unfold initialize, initialize_commands.
  apply (issues_bind e _ _ [_] (_ :: _)); [apply issues_local | intros _].
  apply (issues_bind e _ _ [_] (_ :: _)); [apply issues_local | intros _].
  apply (issues_bind e _ _ [_] (_ :: _)); [apply issues_local | intros _].
  apply (issues_bind e _ _ [_] (_ :: _)); [apply issues_local | intros _].
  apply (issues_bind e _ _ [_] []); [apply issues_local | intros _].
  apply issues_ret.
Qed.

Lemma issues_startapp app : issues e (startapp W app) (startapp_commands app).
Proof.
  unfold startapp, startapp_commands.
  apply issues_bind_pure with (a := "mkdir { project_name }/apps/" +:+ app).
  { intros s _. apply format_mkdir. }
  apply (issues_bind e _ _ [_] [_]); [apply issues_local | intros _].
  apply issues_bind_pure
    with (a := "python manage.py startapp " +:+ app
                 +:+ " { project_name }/apps/" +:+ app).
  { intros s _. apply format_startapp. }
  apply (issues_bind e _ _ [_] []); [apply issues_local | intros _].
  apply issues_ret.
Qed.

End ProjectTasks.

(** X10.  initialize runs its five commands in the order written (remove
    the docs, write .gitignore, git init, git add, git commit): every run
    has run an initial part of them, and a run that returns has run all
    five.  The .gitignore line is not formatted, so its doubled braces
    reach the shell as they are. *)
Theorem initialize_runs_in_order (W : world) (s : state) :
  ∃ ran,
    commands (log (initialize W s).2) = commands (log s) ++ ran ∧
    ran `prefix_of` [
      "rm -rf docs README.md";
      "echo /{{ project_name }}/static > .gitignore";
      "git init";
      "git add .";
      "git commit -m 'First commit'"
    ] ∧
    ((initialize W s).1 = Ok () →
       ran = [
         "rm -rf docs README.md";
         "echo /{{ project_name }}/static > .gitignore";
         "git init";
         "git add .";
         "git commit -m 'First commit'"
       ]).
Proof.
  destruct (initialize W s) as [r s'] eqn:Ei.
  destruct (issues_initialize W (env s) s r s' eq_refl Ei)
    as (_ & ran & Hlog & Hran).
  exists ran. cbn [fst snd]. split; [exact Hlog|]. split.
  - destruct r; [now subst | exact Hran].
  - intros ->. exact Hran.
Qed.

(** X11.  startapp makes the directory before it runs [manage.py startapp]:
    every run has run an initial part of the two commands, both when the
    task returns.  Both commands go through [format], which turns the
    doubled braces of the template into single ones and puts the app name
    in. *)
Theorem startapp_runs_in_order (W : world) (app : string) (s : state) :
  ∃ ran,
    commands (log (startapp W app s).2) = commands (log s) ++ ran ∧
    ran `prefix_of` [
      "mkdir { project_name }/apps/" +:+ app;
      "python manage.py startapp " +:+ app
        +:+ " { project_name }/apps/" +:+ app
    ] ∧
    ((startapp W app s).1 = Ok () →
       ran = [
         "mkdir { project_name }/apps/" +:+ app;
         "python manage.py startapp " +:+ app
           +:+ " { project_name }/apps/" +:+ app
       ]).
Proof.
  destruct (startapp W app s) as [r s'] eqn:Ei.
  destruct (issues_startapp W (env s) app s r s' eq_refl Ei)
    as (_ & ran & Hlog & Hran).
  exists ran. cbn [fst snd]. split; [exact Hlog|]. split.
  - destruct r; [now subst | exact Hran].
  - intros ->. exact Hran.
Qed.

(** ** Update in runs that go wrong *)

(** X12.  In every run of update with [env.run] set, whatever fails and
    whatever the operator answers, the commands run are an initial part of
    push, syncdb, migrate, collectstatic, compress, New Relic check, in that
    order: no step runs before an earlier one has, and a run that returns
    has run all six. *)
Theorem update_runs_a_prefix (W : world) (s : state) (run : value) :
  env s !! "run" = Some run →
  ∃ ran,
    commands (log (update W s).2) = commands (log s) ++ ran ∧
    ran `prefix_of` deploy_commands (str run) ∧
    ((update W s).1 = Ok () → ran = deploy_commands (str run)).
Proof.
  intros Hrun.
  destruct (update W s) as [r s'] eqn:Eu.
  destruct (issues_update W (env s) run Hrun s r s' eq_refl Eu)
    as (_ & ran & Hlog & Hran).
  exists ran. cbn [fst snd]. split; [exact Hlog|]. split.
  - destruct r; [now subst | exact Hran].
  - intros ->. exact Hran.
Qed.

Lemma update_runs_a_prefix_witness :
  ∃ ran,
    commands (log (update only_push_succeeds initial_state).2) = [] ++ ran ∧
    ran `prefix_of` deploy_commands "heroku run python manage.py" ∧
    ((update only_push_succeeds initial_state).1 = Ok () →
       ran = deploy_commands "heroku run python manage.py").
Proof.
  apply (update_runs_a_prefix only_push_succeeds initial_state
           (VStr "heroku run python manage.py")).
  reflexivity.
Defined.

Lemma syncdb_missing_run W s :
  env s !! "run" = None → syncdb W s = (Raise (KeyError "run"), s).
Proof.
  intros Hrun. unfold syncdb. apply bind_raise.
  unfold format_env, get_env, bind, lift.
  change "{run} syncdb --noinput" with ("{run}" +:+ " syncdb --noinput").
  now rewrite format_env_missing_run.
Qed.

(** X13.  Without [env.run] update cannot get past its first step: in
    every run it runs the code push and no other command, and it never
    returns normally. *)
Theorem update_without_run_key (W : world) (s : state) :
  env s !! "run" = None →
  commands (log (update W s).2)
  = commands (log s) ++ ["git push heroku master"] ∧
  (update W s).1 ≠ Ok ().
Proof.
  intros Hrun. unfold update.
  destruct (cont W "git push heroku master" (Some push_question) s)
    as [r1 s1] eqn:Ec.
  assert (Henv : env s1 = env s).
  { pose proof (preserves_cont W "git push heroku master"
                  (Some push_question) s) as Hp.
    now rewrite Ec in Hp. }
  assert (Hcmd : commands (log s1)
                 = commands (log s) ++ ["git push heroku master"]).
  { rewrite cont_unfold in Ec. cbv zeta in Ec.
    destruct (truthy_arg _ && failed _).
    - destruct (operator_accepts W _ _); injection Ec as <- <-; simpl;
        now rewrite commands_record_asked, commands_record_ran.
    - injection Ec as <- <-. simpl. apply commands_record_ran. }
  destruct r1 as [[]|e1].
  - rewrite (bind_ok _ _ _ _ _ Ec).
    rewrite (bind_raise _ _ _ _ _ (syncdb_missing_run W s1
               ltac:(now rewrite Henv))).
    split; [exact Hcmd | discriminate].
  - rewrite (bind_raise _ _ _ _ _ Ec). split; [exact Hcmd | discriminate].
Qed.

Lemma update_without_run_key_witness :
  commands (log (update all_succeed {| env := ∅; log := [] |}).2)
  = [] ++ ["git push heroku master"] ∧
  (update all_succeed {| env := ∅; log := [] |}).1 ≠ Ok ().
Proof.
  apply (update_without_run_key all_succeed {| env := ∅; log := [] |}).
  reflexivity.
Defined.

(** ** What a normal return guarantees *)

Section Checked.

Variable W : world.
Context {A B : Type}.

Lemma checked_ret (a : A) : checked (ret a).
Proof.
  intros s a' s' _ [= <- <-]. split; [reflexivity|].
  exists []. now rewrite app_nil_r.
Qed.

Lemma checked_lift (r : result A) : checked (lift r).
Proof.
  intros s a' s' _ [= _ <-]. split; [reflexivity|].
  exists []. now rewrite app_nil_r.
Qed.

Lemma checked_get_env : checked get_env.
Proof.
  intros s a' s' _ [= _ <-]. split; [reflexivity|].
  exists []. now rewrite app_nil_r.
Qed.

Lemma checked_bind (m : M A) (f : A → M B) :
  checked m → (∀ a, checked (f a)) → checked (x ← m; f x).
Proof.
  intros Hm Hf s b s' Hw. unfold bind.
  destruct (m s) as [[a|e] s1] eqn:Em; [|discriminate].
  destruct (Hm _ _ _ Hw Em) as (He1 & evs1 & Hl1 & Hf1).
  intros Ef.
  destruct (Hf a _ _ _ ltac:(now rewrite He1) Ef)
    as (He2 & evs2 & Hl2 & Hf2).
  split; [now rewrite He2|].
  exists (evs1 ++ evs2). split.
  - now rewrite Hl2, Hl1, app_assoc.
  - now apply Forall_app.
Qed.

Lemma checked_local cmd capture : checked (local W cmd capture).
Proof.
  intros s a s' Hw. unfold local. rewrite Hw, andb_true_r.
  destruct (failed _) eqn:Hf; [discriminate|].
  intros [= _ <-]. split; [reflexivity|].
  exists [Ran cmd capture (returncode W (log s) cmd)].
  split; [reflexivity|]. constructor; [|constructor].
  destruct capture; [exact I|]. simpl.
  unfold failed in Hf. now destruct (Z.eqb_spec (returncode W (log s) cmd) 0).
Qed.

Lemma checked_cont cmd message : checked (cont W cmd message).
Proof.
  intros s a s' Hw. rewrite cont_unfold. cbv zeta.
  destruct (truthy_arg message && failed _).
  - destruct (operator_accepts W _ _); [|discriminate].
    intros Heq. apply (f_equal snd) in Heq. cbn [snd] in Heq. subst s'.
    split; [reflexivity|].
    eexists [_; _]. unfold record; simpl. rewrite <- app_assoc.
    split; [reflexivity|]. repeat constructor.
  - intros Heq. apply (f_equal snd) in Heq. cbn [snd] in Heq. subst s'.
    split; [reflexivity|].
    eexists [_]. split; [reflexivity|]. repeat constructor.
Qed.

End Checked.

Lemma checked_for_each {X} (xs : list X) (body : X → M unit) :
  (∀ x, checked (body x)) → checked (for_each xs body).
Proof.
  intros Hb. induction xs as [|x xs IH]; simpl.
  - apply checked_ret.
  - apply checked_bind; auto.
Qed.

Create HintDb fab_checked.
#[local] Hint Resolve checked_ret checked_lift checked_get_env checked_bind
  checked_local checked_cont checked_for_each : fab_checked.

Lemma checked_update W : checked (update W).
Proof.
  unfold update, syncdb, migrate, collectstatic, compress, format_env.
  cbn [truthy_arg]. auto 20 with fab_checked.
Qed.

Lemma checked_bootstrap W app : checked (bootstrap W app).
Proof.
  unfold bootstrap. cbv zeta.
  apply checked_bind; [apply checked_lift | intros cmd].
  apply checked_bind; [apply checked_cont | intros _].
  apply checked_bind.
  { apply checked_for_each. intros addon. unfold add_addon, format1.
    auto 10 with fab_checked. }
  intros _. apply checked_bind.
  { apply checked_for_each. intros config. unfold add_config, format1.
    auto 10 with fab_checked. }
  intros _. apply checked_update.
Qed.

(** X14.  Under Fabric's default ([env.warn_only] false), when update or
    bootstrap returns, the run has only added to the history, and every
    command in it that was run directly (syncdb, migrate, collectstatic,
    compress) exited with zero; only the commands wrapped in [cont] can
    have failed and been passed over. *)
Theorem normal_return_means_direct_steps_succeeded (W : world) (s : state) :
  warn_only (env s) = false →
  ((update W s).1 = Ok () →
     ∃ evs, log (update W s).2 = log s ++ evs ∧
            ∀ cmd code, In (Ran cmd false code) evs → code = 0%Z) ∧
  (∀ app, (bootstrap W app s).1 = Ok () →
     ∃ evs, log (bootstrap W app s).2 = log s ++ evs ∧
            ∀ cmd code, In (Ran cmd false code) evs → code = 0%Z).
Proof.
  intros Hw.
  assert (Hgen : ∀ m : M unit, checked m → (m s).1 = Ok () →
            ∃ evs, log (m s).2 = log s ++ evs ∧
                   ∀ cmd code, In (Ran cmd false code) evs → code = 0%Z).
  { intros m Hm. destruct (m s) as [r s'] eqn:Em. cbn [fst snd].
    intros ->. destruct (Hm _ _ _ Hw Em) as (_ & evs & Hl & Hf).
    exists evs. split; [exact Hl|]. intros cmd code Hin.
    rewrite List.Forall_forall in Hf. exact (Hf _ Hin). }
  split; [apply Hgen, checked_update|].
  intros app. apply Hgen, checked_bootstrap.
Qed.

Lemma normal_return_means_direct_steps_succeeded_witness :
  ∃ evs, log (update all_succeed initial_state).2 = [] ++ evs ∧
         ∀ cmd code, In (Ran cmd false code) evs → code = 0%Z.
Proof.
  destruct (normal_return_means_direct_steps_succeeded all_succeed
              initial_state) as (Hupdate & _); [reflexivity|].
  apply Hupdate. reflexivity.
Defined.

Lemma initialize_runs_in_order_witness :
  commands (log (initialize all_succeed initial_state).2)
  = [ "rm -rf docs README.md";
      "echo /{{ project_name }}/static > .gitignore";
      "git init";
      "git add .";
      "git commit -m 'First commit'" ].
Proof.
  destruct (initialize_runs_in_order all_succeed initial_state)
    as (ran & Hlog & _ & Hall).
  rewrite Hlog. apply Hall. reflexivity.
Defined.

Lemma startapp_runs_in_order_witness :
  commands (log (startapp all_succeed "blog" initial_state).2)
  = [ "mkdir { project_name }/apps/" +:+ "blog";
      "python manage.py startapp " +:+ "blog"
        +:+ " { project_name }/apps/" +:+ "blog" ].
Proof.
  destruct (startapp_runs_in_order all_succeed "blog" initial_state)
    as (ran & Hlog & _ & Hall).
  rewrite Hlog. apply Hall. vm_compute. reflexivity.
Defined.

(** ** Runs only add to the history *)

Section Appends.

Variable W : world.
Context {A B : Type}.

Lemma appends_ret (a : A) : appends (ret a).
Proof. intros s. exists []. simpl. now rewrite app_nil_r. Qed.

Lemma appends_lift (r : result A) : appends (lift r).
Proof. intros s. exists []. simpl. now rewrite app_nil_r. Qed.

Lemma appends_get_env : appends get_env.
Proof. intros s. exists []. simpl. now rewrite app_nil_r. Qed.

Lemma appends_bind (m : M A) (f : A → M B) :
  appends m → (∀ a, appends (f a)) → appends (x ← m; f x).
Proof.
  intros Hm Hf s. unfold bind. destruct (Hm s) as (evs1 & Hl1).
  destruct (m s) as [[a|e] s1]; simpl in *.
  - destruct (Hf a s1) as (evs2 & Hl2). exists (evs1 ++ evs2).
    now rewrite Hl2, Hl1, app_assoc.
  - now exists evs1.
Qed.

Lemma appends_local cmd capture : appends (local W cmd capture).
Proof.
  intros s. exists [Ran cmd capture (returncode W (log s) cmd)].
  unfold local. destruct (failed _ && negb _); reflexivity.
Qed.

Lemma appends_cont cmd message : appends (cont W cmd message).
Proof.
  intros s. rewrite cont_unfold. cbv zeta.
  destruct (truthy_arg message && failed _).
  - destruct (operator_accepts W _ _); eexists [_; _]; simpl;
      rewrite <- app_assoc; reflexivity.
  - eexists [_]. reflexivity.
Qed.

End Appends.

Lemma appends_for_each {X} (xs : list X) (body : X → M unit) :
  (∀ x, appends (body x)) → appends (for_each xs body).
Proof.
  intros Hb. induction xs as [|x xs IH]; simpl.
  - apply appends_ret.
  - apply appends_bind; auto.
Qed.

Create HintDb fab_appends.
#[local] Hint Resolve appends_ret appends_lift appends_get_env appends_bind
  appends_local appends_cont appends_for_each : fab_appends.

Lemma appends_update W : appends (update W).
Proof.
  unfold update, syncdb, migrate, collectstatic, compress, format_env.
  cbn [truthy_arg]. auto 20 with fab_appends.
Qed.

Lemma appends_reaches {A} (m : M A) : appends m → reaches m [].
Proof.
  intros Hm s. destruct (Hm s) as (evs & Hl). exists (commands evs).
  rewrite Hl. unfold commands. now rewrite omap_app.
Qed.

(** [cont] runs its command in every run. *)
Lemma cont_runs_command W cmd message s :
  commands (log (cont W cmd message s).2) = commands (log s) ++ [cmd].
Proof.
  rewrite cont_unfold. cbv zeta.
  destruct (truthy_arg message && failed _).
  - destruct (operator_accepts W _ _); simpl;
      now rewrite commands_record_asked, commands_record_ran.
  - simpl. apply commands_record_ran.
Qed.

Lemma reaches_cont_then {B} W cmd message (next : unit → M B) :
  (∀ x, appends (next x)) → reaches (x ← cont W cmd message; next x) [cmd].
Proof.
  intros Hn s. unfold bind.
  pose proof (cont_runs_command W cmd message s) as Hc.
  destruct (cont W cmd message s) as [[x|e] s1]; simpl in *.
  - destruct (Hn x s1) as (evs & Hl). exists (commands evs).
    rewrite Hl. unfold commands at 1. rewrite omap_app.
    fold (commands (log s1)). fold (commands evs).
    now rewrite Hc, <- app_assoc.
  - exists []. now rewrite Hc.
Qed.

(** ** Runs in which the operator never refuses *)

Section Accepting.

Variable W : world.
Hypothesis Haccepts : never_refuses W.

Lemma completes_cont cmd message : completes (cont W cmd message) [cmd].
Proof.
  intros s. pose proof (cont_runs_command W cmd message s) as Hc.
  pose proof (preserves_cont W cmd message s) as He.
  rewrite cont_unfold in *. cbv zeta in *.
  destruct (truthy_arg message && failed _) eqn:Hask.
  - apply andb_true_iff in Hask as [_ Hf].
    assert (Hcode : returncode W (log s) cmd ≠ 0%Z).
    { intros Hz. unfold failed in Hf. rewrite Hz in Hf. discriminate. }
    unfold record in *; cbn [log env] in *.
    rewrite (Haccepts (log s) cmd _ Hcode) in *.
    eexists _, _. split; [reflexivity|]. now split.
  - eexists _, _. split; [reflexivity|]. now split.
Qed.

Lemma completes_for_each {X} (xs : list X) (body : X → M unit)
    (cmd : X → string) :
  (∀ x, completes (body x) [cmd x]) →
  completes (for_each xs body) (map cmd xs).
Proof.
  intros Hb. induction xs as [|x xs IH]; simpl; intros s.
  - exists (), s. rewrite app_nil_r. now repeat split.
  - destruct (Hb x s) as ([] & s1 & E1 & He1 & Hc1).
    destruct (IH s1) as ([] & s2 & E2 & He2 & Hc2).
    exists (), s2. rewrite (bind_ok _ _ _ _ _ E1). split; [exact E2|].
    split; [now rewrite He2|].
    now rewrite Hc2, Hc1, <- app_assoc.
Qed.

Lemma completes_add_addon addon :
  completes (add_addon W addon) [addon_command addon].
Proof.
  intros s. rewrite add_addon_unfold. apply completes_cont.
Qed.

Lemma completes_add_config config :
  completes (add_config W config) [config_command config].
Proof.
  intros s. rewrite add_config_unfold. apply completes_cont.
Qed.

Lemma reaches_after {A B} (m : M A) (f : A → M B) c1 c2 :
  completes m c1 → (∀ a, reaches (f a) c2) →
  reaches (x ← m; f x) (c1 ++ c2).
Proof.
  intros Hm Hf s. destruct (Hm s) as (a & s1 & E1 & _ & Hc1).
  rewrite (bind_ok _ _ _ _ _ E1).
  destruct (Hf a s1) as (more & Hc2). exists more.
  now rewrite Hc2, Hc1, <- !app_assoc.
Qed.

(** When the operator never refuses, bootstrap gets through its
    provisioning and the code push whatever the commands' outcomes are. *)
Lemma reaches_bootstrap app :
  reaches (bootstrap W app) (provision_commands app).
Proof.
  unfold bootstrap, provision_commands. cbv zeta. intros s.
  rewrite (bind_ok _ _ _ _ _ (format_create _ s)). revert s.
  apply (reaches_after _ _ [_]); [apply completes_cont | intros _].
  apply reaches_after.
  { apply completes_for_each. intros addon. apply completes_add_addon. }
  intros _. apply reaches_after.
  { apply completes_for_each. intros config. apply completes_add_config. }
  intros _.
  change ["git push heroku master"] with (["git push heroku master"] ++ []).
  apply reaches_after; [apply completes_cont | intros _].
  apply appends_reaches.
  unfold syncdb, migrate, collectstatic, compress, format_env.
  cbn [truthy_arg]. auto 20 with fab_appends.
Qed.

End Accepting.

Lemma bootstrap_commands_split app run :
  bootstrap_commands app run
  = provision_commands app ++ List.tl (deploy_commands run).
Proof. reflexivity. Qed.

Lemma addon_installs_of_provision app :
  List.filter is_addon_install (provision_commands app)
  = map addon_command HEROKU_ADDONS.
Proof.
  unfold provision_commands. cbn [List.filter].
  rewrite create_is_no_addon_install. reflexivity.
Qed.

Lemma no_addon_installs (l : list string) :
  Forall (λ c, is_addon_install c = false) l →
  List.filter is_addon_install l = [].
Proof.
  induction 1 as [|c l Hc _ IH]; simpl; [reflexivity|]. now rewrite Hc.
Qed.

(** ** The add-on catalog *)



(** ** The default application name *)

Lemma generated_project_tag project_name secret_key :
  generated project_name secret_key "{{ project_name }}" = project_name ∧
  generated project_name secret_key "{{ project_name}}" = project_name.
Proof.
  unfold generated, Django.render, startproject_context.
  split; cbn -[lookup insert]; unfold Django.resolve;
    rewrite lookup_insert_eq; apply append_empty_r.
Qed.

(** Rendering leaves the untagged text of the two tasks as it is. *)
Lemma untagged_text_unchanged project_name secret_key :
  Forall (λ text, generated project_name secret_key text = text)
    untagged_text.
Proof. repeat constructor. Qed.

Lemma bind_same_rest {A B} (m m' : M A) (f : A → M B) s :
  m s = m' s → (x ← m; f x) s = (x ← m'; f x) s.
Proof. unfold bind. now intros ->. Qed.

Lemma for_each_add_config W (xs ys : list string) s :
  length xs = length ys →
  for_each xs (add_config W) s = for_each ys (add_config W) s.
Proof.
  revert ys s. induction xs as [|x xs IH]; intros [|y ys] s Hlen;
    try discriminate; [reflexivity|].
  simpl. unfold bind. rewrite !add_config_unfold.
  destruct (cont W _ _ s) as [[[]|e] s1]; [|reflexivity].
  apply IH. now injection Hlen.
Qed.

Section GeneratedTasks.

Variable W : world.
Variables (project_name secret_key : string).

Lemma generated_bootstrap_unfold app s :
  truthy_arg app = false → project_name ≠ "" →
  generated_bootstrap W project_name secret_key app s
  = bootstrap W (Some project_name) s.
Proof.
  intros Happ Hname. unfold generated_bootstrap, bootstrap. cbv zeta.
  destruct (generated_project_tag project_name secret_key) as [_ ->].
  replace (app_or app project_name) with project_name
    by (unfold app_or; now rewrite Happ).
  replace (app_or (Some project_name) bootstrap_default) with project_name
    by (unfold app_or; now destruct project_name).
  apply bind_ext. intros cmd s1.
  apply bind_ext. intros _ s2.
  apply bind_ext. intros _ s3.
  apply bind_same_rest. apply for_each_add_config. apply length_map.
Qed.

Lemma generated_destroy_unfold app s :
  truthy_arg app = false →
  generated_destroy W project_name secret_key app s
  = run_directly W ("heroku apps:destroy --app " +:+ project_name) s.
Proof.
  intros Happ. unfold generated_destroy. cbv zeta.
  destruct (generated_project_tag project_name secret_key) as [-> _].
  replace (app_or app project_name) with project_name
    by (unfold app_or; now rewrite Happ).
  rewrite (bind_ok _ _ _ _ _ (format_destroy _ s)).
  apply direct_step.
Qed.

Lemma generated_bootstrap_creates app s :
  truthy_arg app = false →
  ∃ rest,
    commands (log (generated_bootstrap W project_name secret_key app s).2)
    = commands (log s) ++ ("heroku apps:create " +:+ project_name) :: rest.
Proof.
  intros Happ. unfold generated_bootstrap. cbv zeta.
  destruct (generated_project_tag project_name secret_key) as [_ ->].
  replace (app_or app project_name) with project_name
    by (unfold app_or; now rewrite Happ).
  rewrite (bind_ok _ _ _ _ _ (format_create _ s)).
  apply (reaches_cont_then W _ _ (λ _, _)).
  intros _.
  unfold add_addon, add_config, format1, syncdb, migrate, collectstatic,
    compress, format_env.
  cbn [truthy_arg]. auto 30 with fab_appends.
Qed.

End GeneratedTasks.

(** C6.  In the project's file both default names are the same variable
    tag of the template, written with and without a space before the
    closing braces, and both render to the project's name.  So in every
    generated project, bootstrap and destroy called with no application name
    (or an empty one) fall back to the same token, the project's name:
    bootstrap creates it, and is the bootstrap of the template called with
    that name, and destroy tears the same one down. *)
Theorem defaults_are_the_same_token (W : world)
    (project_name secret_key : string) (app : option string) (s : state) :
  truthy_arg app = false →
  generated project_name secret_key "{{ project_name}}" = project_name ∧
  generated project_name secret_key "{{ project_name }}" = project_name ∧
  (∃ rest,
     commands (log (generated_bootstrap W project_name secret_key app s).2)
     = commands (log s)
         ++ ("heroku apps:create " +:+ project_name) :: rest) ∧
  generated_destroy W project_name secret_key app s
  = run_directly W ("heroku apps:destroy --app " +:+ project_name) s ∧
  commands (log (generated_destroy W project_name secret_key app s).2)
  = commands (log s) ++ ["heroku apps:destroy --app " +:+ project_name] ∧
  (project_name ≠ "" →
     generated_bootstrap W project_name secret_key app s
     = bootstrap W (Some project_name) s ∧
     generated_destroy W project_name secret_key app s
     = destroy W (Some project_name) s).
Proof.
  intros Happ.
  destruct (generated_project_tag project_name secret_key) as [Hd Hb].
  split; [exact Hb|]. split; [exact Hd|].
  split; [now apply generated_bootstrap_creates|].
  split; [now apply generated_destroy_unfold|].
  split.
  - rewrite generated_destroy_unfold by exact Happ.
    unfold run_directly. cbv zeta. cbn [snd].
    apply commands_record_ran.
  - intros Hname. split; [now apply generated_bootstrap_unfold|].
    rewrite generated_destroy_unfold by exact Happ.
    unfold destroy. cbv zeta.
    replace (app_or (Some project_name) destroy_default) with project_name
      by (unfold app_or; now destruct project_name).
    rewrite (bind_ok _ _ _ _ _ (format_destroy _ s)).
    symmetry. apply direct_step.
Qed.

Lemma defaults_are_the_same_token_witness :
  generated "shop" "s3cr3t" "{{ project_name}}" = "shop" ∧
  generated "shop" "s3cr3t" "{{ project_name }}" = "shop" ∧
  generated_destroy all_succeed "shop" "s3cr3t" None initial_state
  = run_directly all_succeed ("heroku apps:destroy --app " +:+ "shop")
      initial_state ∧
  generated_bootstrap all_succeed "shop" "s3cr3t" None initial_state
  = bootstrap all_succeed (Some "shop") initial_state.
Proof.
  destruct (defaults_are_the_same_token all_succeed "shop" "s3cr3t" None
              initial_state eq_refl)
    as (Hb & Hd & _ & Hdestroy & _ & Hsame).
  split; [exact Hb|]. split; [exact Hd|]. split; [exact Hdestroy|].
  apply Hsame. discriminate.
Defined.
